(** * Turmeric disease detection: the Convex backend and the upload handler

    A shallow embedding of
      - the [seedDiseases] mutation ([convex/seedDiseases.ts], lines 3-128);
      - the analysis module, whose text follows it in the same source file:
        [analyzeImage] (lines 135-256), [getTreatmentInfo] (258-329),
        [createAnalysis] (331-347), [updateAnalysis] (349-368),
        [getAnalysis] (370-377), [getUserAnalyses] (379-391);
      - the two application tables of the schema;
      - [handleImageUpload] and the reader callbacks ([src/App.tsx],
        lines 111-216);
      - the state of the home view: [isMockId], the query argument, the
        three effects, the timer callbacks, [resetAnalysis] (lines 28-109
        and 218-225) and [renderCurrentState] (lines 458-546).
    Not embedded: [handleDebugMock], which no rendered control calls, the
    presentational components and the sign-in form.

    Conventions of the embedding.
      - A Convex table is the list of its documents in creation order; a
        document id is the position of the document in that list.  No code of
        the repository deletes a document, so positions are stable.
      - A JavaScript string is a Rocq [string], the bytes of its text.
        [toLowerCase] folds the letters A-Z of an ASCII text; on a text
        with other characters it is the case mapping of the JavaScript
        engine, a field of [Platform].
      - [v.number()] is a float64 in Convex; the orchestrator only copies the
        number, so it is kept as an integer here.
      - An [async] function of an action or mutation is a computation in the
        monad [Action]: it reads and writes the [World] (the two tables and
        the trace of observable events) and either returns or throws.
        Invocations run one after the other.
      - What lies outside the repository (the chat-completion service, the
        auth library, [JSON.parse]) and the [diseases.list] query, which the
        sources call but do not contain, are fields of the record [Platform]. *)

From Stdlib Require Import ZArith Ascii String.
From stdpp Require Import base list strings sorting.

Open Scope string_scope.

(** ** JavaScript strings *)

Module JsString.

(** The lower case of an ASCII character: A-Z become a-z. *)
Definition lower_ascii (c : ascii) : ascii :=
  let n := nat_of_ascii c in
  if (65 <=? n)%nat && (n <=? 90)%nat then ascii_of_nat (n + 32) else c.

Fixpoint foldAscii (s : string) : string :=
  match s with
  | EmptyString => EmptyString
  | String c r => String (lower_ascii c) (foldAscii r)
  end.

(** Every character of [s] is an ASCII character. *)
Fixpoint is_ascii (s : string) : bool :=
  match s with
  | EmptyString => true
  | String c r => (nat_of_ascii c <? 128)%nat && is_ascii r
  end.

(** [String.prototype.toLowerCase].  On an ASCII text the Unicode case
    mapping folds A-Z and leaves the other characters; on a text with other
    characters it is [unicode], the mapping of the engine, on which nothing
    is assumed. *)
Definition toLowerCase (unicode : string -> string) (s : string) : string :=
  if is_ascii s then foldAscii s else unicode s.

(** [s.startsWith(p)]. *)
Fixpoint startsWith (p s : string) : bool :=
  match p, s with
  | EmptyString, _ => true
  | String a p', String b s' => if Ascii.eqb a b then startsWith p' s' else false
  | String _ _, EmptyString => false
  end.

(** [s.includes(p)]: [p] occurs in [s] as a contiguous substring. *)
Fixpoint includes (s p : string) : bool :=
  if startsWith p s then true
  else match s with
       | EmptyString => false
       | String _ r => includes r p
       end.

(** JavaScript truthiness of a string: only the empty string is falsy. *)
Definition truthy (s : string) : bool :=
  match s with EmptyString => false | _ => true end.

End JsString.

(** ** The schema ([convex/schema.ts]) *)

Inductive Severity := low | moderate | high.
Inductive Status := analyzing | completed | failed.

Definition number := Z.
Definition UserId := nat.
Definition AnalysisId := nat.

Record Disease := {
  name : string;
  scientificName : string;
  d_severity : Severity;
  d_symptoms : list string;
  causes : string;
  prevention : list string;
  d_treatment : string;
  description : string
}.

Record Source := { title : string; url : string; snippet : string }.

Record Analysis := {
  userId : option UserId;
  imageUrl : option string;
  imageStorageId : option nat;
  detectedDisease : string;
  confidence : number;
  severity : Severity;
  symptoms : list string;
  treatment : string;
  sources : option (list Source);
  status : Status
}.

#[global] Instance Severity_eq_dec : EqDecision Severity.
Proof. solve_decision. Defined.
#[global] Instance Status_eq_dec : EqDecision Status.
Proof. solve_decision. Defined.

(** ** The world of a backend function *)

(** The events of a run that a claim can observe. *)
Inductive ChatRequest :=
| VisionRequest (imageBase64 : string)
| TreatmentRequest (disease : string) (symptoms : list string).

Inductive Event :=
| EvChatCompletion (req : ChatRequest)
| EvQueryDiseases
| EvInsertDisease (d : Disease)
| EvInsertAnalysis (id : AnalysisId) (st : Status)
| EvPatchAnalysis (id : AnalysisId) (st : Status)
| EvConsoleError.

Record World := {
  diseases : list Disease;
  analyses : list Analysis;
  trace : list Event
}.

Definition emit (e : Event) (w : World) : World :=
  {| diseases := diseases w; analyses := analyses w; trace := trace w ++ [e] |}.

(** ** [seedDiseases] ([convex/seedDiseases.ts]) *)

Module Seed.

Definition leafSpot : Disease := {|
  name := "Leaf Spot Disease";
  scientificName := "Taphrina maculans";
  d_severity := moderate;
  d_symptoms := [
    "Brown or black spots on leaves";
    "Yellowing around spots";
    "Premature leaf drop";
    "Reduced plant vigor" ];
  causes := "Fungal infection caused by excessive moisture and poor air circulation. Common in humid conditions and overcrowded plantings.";
  prevention := [
    "Ensure proper spacing between plants";
    "Improve air circulation";
    "Avoid overhead watering";
    "Remove infected plant debris";
    "Apply preventive fungicide sprays" ];
  d_treatment := "Remove affected leaves immediately. Apply copper-based fungicide or neem oil spray. Improve drainage and reduce watering frequency. Ensure good air circulation around plants.";
  description := "A common fungal disease affecting turmeric leaves, characterized by dark spots that can spread rapidly in humid conditions."
|}.

Definition rhizomeRot : Disease := {|
  name := "Rhizome Rot";
  scientificName := "Pythium aphanidermatum";
  d_severity := high;
  d_symptoms := [
    "Soft, mushy rhizomes";
    "Foul smell from roots";
    "Yellowing and wilting leaves";
    "Stunted growth";
    "Plant collapse" ];
  causes := "Waterlogged soil conditions leading to fungal infection. Poor drainage and overwatering are primary causes.";
  prevention := [
    "Ensure excellent drainage";
    "Avoid overwatering";
    "Use raised beds in heavy soils";
    "Plant in well-draining soil mix";
    "Rotate crops annually" ];
  d_treatment := "Remove affected plants immediately. Improve soil drainage. Apply fungicide drench with metalaxyl or fosetyl-al. Reduce watering and ensure proper soil aeration.";
  description := "A serious fungal disease that attacks the rhizome system, potentially causing complete plant loss if not treated promptly."
|}.

Definition leafBlight : Disease := {|
  name := "Leaf Blight";
  scientificName := "Colletotrichum capsici";
  d_severity := moderate;
  d_symptoms := [
    "Large brown patches on leaves";
    "Leaf margins turning brown";
    "Defoliation in severe cases";
    "Reduced rhizome yield" ];
  causes := "Fungal pathogen that thrives in warm, humid conditions. Spread through water splash and contaminated tools.";
  prevention := [
    "Use disease-free planting material";
    "Maintain proper plant spacing";
    "Apply preventive copper sprays";
    "Remove plant debris";
    "Avoid working with wet plants" ];
  d_treatment := "Apply copper oxychloride or mancozeb fungicide. Remove infected leaves and destroy them. Improve air circulation and reduce leaf wetness duration.";
  description := "A foliar disease that can significantly reduce plant health and rhizome production if left untreated."
|}.

Definition bacterialWilt : Disease := {|
  name := "Bacterial Wilt";
  scientificName := "Ralstonia solanacearum";
  d_severity := high;
  d_symptoms := [
    "Sudden wilting of leaves";
    "Yellowing from bottom up";
    "Brown vascular discoloration";
    "Plant death within days";
    "No recovery after watering" ];
  causes := "Soil-borne bacterial pathogen that enters through root wounds. Spreads rapidly in warm, moist conditions.";
  prevention := [
    "Use certified disease-free rhizomes";
    "Avoid soil from infected areas";
    "Practice crop rotation";
    "Maintain soil pH 6.0-7.0";
    "Ensure good drainage" ];
  d_treatment := "No effective cure once infected. Remove and destroy affected plants immediately. Treat soil with copper sulfate. Plant resistant varieties in future seasons.";
  description := "A devastating bacterial disease that can cause rapid plant death and soil contamination for future crops."
|}.

Definition healthyPlant : Disease := {|
  name := "Healthy Plant";
  scientificName := "Curcuma longa";
  d_severity := low;
  d_symptoms := [
    "Vibrant green leaves";
    "Strong upright growth";
    "No discoloration or spots";
    "Healthy root system" ];
  causes := "Optimal growing conditions with proper nutrition, water management, and disease prevention practices.";
  prevention := [
    "Maintain consistent care routine";
    "Monitor for early disease signs";
    "Ensure proper nutrition";
    "Regular health inspections";
    "Preventive treatments as needed" ];
  d_treatment := "Continue current care practices. Monitor regularly for any changes. Maintain optimal growing conditions with balanced fertilization and proper watering.";
  description := "A healthy turmeric plant showing no signs of disease or stress, indicating optimal growing conditions."
|}.

(** The array literal [diseases] of the handler. *)
Definition seed_entries : list Disease :=
  [leafSpot; rhizomeRot; leafBlight; bacterialWilt; healthyPlant].

(** [ctx.db.query("diseases").first()]. *)
Definition first (w : World) : option Disease := head (diseases w).

(** [ctx.db.insert("diseases", disease)]. *)
Definition insert_disease (d : Disease) (w : World) : World :=
  emit (EvInsertDisease d)
    {| diseases := diseases w ++ [d]; analyses := analyses w; trace := trace w |}.

(** The [for (const disease of diseases)] loop. *)
Fixpoint insert_all (ds : list Disease) (w : World) : World :=
  match ds with
  | [] => w
  | d :: r => insert_all r (insert_disease d w)
  end.

(** The handler: the report it returns and the world it leaves. *)
Definition seedDiseases (w : World) : string * World :=
  match first w with
  | Some _ => ("Diseases already seeded", w)
  | None => ("Diseases seeded successfully", insert_all seed_entries w)
  end.

(** The disease inserts of a trace. *)
Definition inserted (t : list Event) : list Disease :=
  omap (fun e => match e with EvInsertDisease d => Some d | _ => None end) t.

End Seed.

(** ** Errors, outcomes and the [Action] monad *)

(** What a backend function can throw. *)
Inductive JsError :=
| ServiceError (msg : string)
    (* thrown by an external service: the chat-completion client, a query *)
| NoAnalysisReceived
    (* [new Error("No analysis received from AI")] *)
| TypeError
    (* a property read on [null] *)
| ArgumentValidationError
    (* a Convex argument validator rejected the arguments of a call *)
| DocumentNotFound.
    (* [ctx.db.patch] on an id that has no document *)

Inductive Outcome (A : Type) :=
| Return (a : A)
| Throw (e : JsError).
Arguments Return {A} a.
Arguments Throw {A} e.

Definition Action (A : Type) := World -> Outcome A * World.

Definition ret {A} (a : A) : Action A := fun w => (Return a, w).
Definition throw {A} (e : JsError) : Action A := fun w => (Throw e, w).

Definition bind {A B} (c : Action A) (k : A -> Action B) : Action B :=
  fun w => match c w with
           | (Return a, w') => k a w'
           | (Throw e, w') => (Throw e, w')
           end.

(** [try { body } catch (error) { handler }]: what [body] did to the world
    before it threw stays done. *)
Definition try_catch {A} (body : Action A) (handler : JsError -> Action A) : Action A :=
  fun w => match body w with
           | (Return a, w') => (Return a, w')
           | (Throw e, w') => handler e w'
           end.

Definition log (e : Event) : Action unit := fun w => (Return tt, emit e w).

(** A pure computation that may throw, run as an action. *)
Definition lift {A} (o : Outcome A) : Action A := fun w => (o, w).

#[global] Instance Action_ret : MRet Action := @ret.
#[global] Instance Action_bind : MBind Action := fun A B k c => bind c k.

(** ** JSON values and the Convex validators *)

#[warnings="-register-all"]
Inductive JSON :=
| JNull
| JBool (b : bool)
| JNum (n : number)
| JStr (s : string)
| JArr (xs : list JSON)
| JObj (fields : list (string * JSON)).

(** The value of a JavaScript expression that may be [undefined]. *)
Definition JsValue := option JSON.

Fixpoint assoc (k : string) (fields : list (string * JSON)) : JsValue :=
  match fields with
  | [] => None
  | (k', v) :: r => if String.eqb k k' then Some v else assoc k r
  end.

(** The property read [o.k]: a [TypeError] on [null], the field of an object,
    [undefined] for a field that is absent and on a number, boolean, string or
    array (none of the keys read by the orchestrator is a built-in property
    of those). *)
Definition getProp (o : JSON) (k : string) : Outcome JsValue :=
  match o with
  | JNull => Throw TypeError
  | JObj fields => Return (assoc k fields)
  | _ => Return None
  end.

Module Validator.

(** [v.string()]. *)
Definition v_string (x : JsValue) : option string :=
  match x with Some (JStr s) => Some s | _ => None end.

(** [v.number()]. *)
Definition v_number (x : JsValue) : option number :=
  match x with Some (JNum n) => Some n | _ => None end.

(** [v.array(v.string())]. *)
Fixpoint all_strings (xs : list JSON) : option (list string) :=
  match xs with
  | [] => Some []
  | JStr s :: r => match all_strings r with Some l => Some (s :: l) | None => None end
  | _ :: _ => None
  end.

Definition v_array_string (x : JsValue) : option (list string) :=
  match x with Some (JArr xs) => all_strings xs | _ => None end.

(** [v.union(v.literal("low"), v.literal("moderate"), v.literal("high"))]. *)
Definition v_severity (x : JsValue) : option Severity :=
  match x with
  | Some (JStr s) =>
      if String.eqb s "low" then Some low
      else if String.eqb s "moderate" then Some moderate
      else if String.eqb s "high" then Some high
      else None
  | _ => None
  end.

(** The outcome of validating the arguments of a call. *)
Definition checked {A} (o : option A) : Outcome A :=
  match o with Some a => Return a | None => Throw ArgumentValidationError end.

End Validator.

(** ** What the repository calls but does not define *)

Record Platform := {
  (** [getAuthUserId(ctx)] of the auth library: the signed-in user, if any. *)
  getAuthUserId : option UserId;
  (** [client.chat.completions.create(...)] followed by
      [response.choices[0]?.message?.content]: the call throws, or yields the
      content, which is [None] when it is [null] or [undefined]. *)
  chat_completion : ChatRequest -> Outcome (option string);
  (** [JSON.parse]: [None] when it throws a [SyntaxError]. *)
  JSON_parse : string -> option JSON;
  (** [String.prototype.toLowerCase] on a text that is not all ASCII. *)
  lowerUnicode : string -> string;
  (** The query [api.diseases.list], whose file is not part of the sources:
      a read of the [diseases] table that returns or throws. *)
  diseases_list : list Disease -> Outcome (list Disease)
}.

(** ** The regular expression of [analyzeImage] *)

Module Regex.

Definition open_brace : ascii := "{"%char.
Definition close_brace : ascii := "}"%char.

(** The suffix of [s] that starts at its first open brace. *)
Fixpoint from_first_open (s : string) : option string :=
  match s with
  | EmptyString => None
  | String c r => if Ascii.eqb c open_brace then Some s else from_first_open r
  end.

(** The longest prefix of [s] that ends in a close brace. *)
Fixpoint upto_last_close (s : string) : option string :=
  match s with
  | EmptyString => None
  | String c r =>
      match upto_last_close r with
      | Some r' => Some (String c r')
      | None => if Ascii.eqb c close_brace then Some (String c EmptyString) else None
      end
  end.

(** [text.match(/\{[\s\S]*\}/)]: the leftmost match starts at the first
    open brace that has a close brace after it, which is the first open
    brace of the text when there is a match at all; the star is greedy
    and its class matches every character, so the match runs to the last
    close brace.  The result is [jsonMatch[0]], or [None] for [null]. *)
Definition match_braces (text : string) : option string :=
  match from_first_open text with
  | Some (String c r) =>
      match upto_last_close r with
      | Some m => Some (String c m)
      | None => None
      end
  | _ => None
  end.

End Regex.

(** ** [convex/analysis.ts] *)

Module Backend.

Import JsString.

Record TreatmentInfo := { t_treatment : string; t_sources : list Source }.

(** The arguments of [updateAnalysis], once validated. *)
Record UpdateArgs := {
  u_analysisId : AnalysisId;
  u_detectedDisease : string;
  u_confidence : number;
  u_severity : Severity;
  u_symptoms : list string;
  u_treatment : string;
  u_sources : list Source;
  u_status : Status
}.

(** [createAnalysis]: [ctx.db.insert("analyses", {...})] and the new id. *)
Definition createAnalysis (user : option UserId) (st : Status) : Action AnalysisId :=
  fun w =>
    let id := length (analyses w) in
    let doc := {| userId := user; imageUrl := None; imageStorageId := None;
                  detectedDisease := ""; confidence := 0%Z; severity := moderate;
                  symptoms := []; treatment := ""; sources := None;
                  status := st |} in
    (Return id,
     emit (EvInsertAnalysis id st)
       {| diseases := diseases w; analyses := analyses w ++ [doc]; trace := trace w |}).

(** [ctx.db.patch(analysisId, updates)] on one document: the fields of
    [updates] replace those of the document, the others stay. *)
Definition patch (a : Analysis) (u : UpdateArgs) : Analysis :=
  {| userId := userId a; imageUrl := imageUrl a; imageStorageId := imageStorageId a;
     detectedDisease := u_detectedDisease u; confidence := u_confidence u;
     severity := u_severity u; symptoms := u_symptoms u;
     treatment := u_treatment u; sources := Some (u_sources u);
     status := u_status u |}.

(** [updateAnalysis]. *)
Definition updateAnalysis (u : UpdateArgs) : Action unit :=
  fun w =>
    match analyses w !! u_analysisId u with
    | None => (Throw DocumentNotFound, w)
    | Some a =>
        (Return tt,
         emit (EvPatchAnalysis (u_analysisId u) (u_status u))
           {| diseases := diseases w;
              analyses := <[u_analysisId u := patch a u]> (analyses w);
              trace := trace w |})
    end.

(** [getAnalysis]: [ctx.db.get(args.analysisId)]. *)
Definition getAnalysis (id : AnalysisId) (w : World) : option Analysis :=
  analyses w !! id.

Definition consultAdvice : string :=
  "Consult with a local agricultural extension office for specific treatment recommendations.".

Definition unableToFetch : string :=
  "Unable to fetch treatment information. Please consult with a local agricultural expert or extension office for proper diagnosis and treatment recommendations.".

Definition tryAgain : string :=
  "Please try again with a clearer image of the turmeric leaf.".

(** The payload substituted when [JSON.parse] throws. *)
Definition fallbackPayload : JSON :=
  JObj [ ("detectedDisease", JStr "Analysis Error");
         ("confidence", JNum 0%Z);
         ("severity", JStr "moderate");
         ("symptoms", JArr [JStr "Unable to parse analysis results"]);
         ("summary", JStr "Error processing image analysis") ].

Section WithPlatform.

Variable P : Platform.

(** The predicate passed to [diseases.find]. *)
Definition matchesDisease (disease : string) (d : Disease) : bool :=
  includes (toLowerCase (lowerUnicode P) (name d)) (toLowerCase (lowerUnicode P) disease)
  || includes (toLowerCase (lowerUnicode P) disease) (toLowerCase (lowerUnicode P) (name d)).

(** [ctx.runQuery(api.diseases.list)]. *)
Definition runQuery_diseases_list : Action (list Disease) :=
  fun w => (diseases_list P (diseases w), emit EvQueryDiseases w).

(** One call of the chat-completion service and the read of its content. *)
Definition chat (req : ChatRequest) : Action (option string) :=
  fun w => (chat_completion P req, emit (EvChatCompletion req) w).

(** The [try] block of [getTreatmentInfo]. *)
Definition getTreatmentInfo_try (disease : string) (symptoms : list string)
  : Action TreatmentInfo :=
  ds ← runQuery_diseases_list;
  match List.find (matchesDisease disease) ds with
  | Some matchedDisease =>
      mret {| t_treatment := d_treatment matchedDisease; t_sources := [] |}
  | None =>
      content ← chat (TreatmentRequest disease symptoms);
      let treatment :=
        match content with
        | Some s => if truthy s then s else consultAdvice
        | None => consultAdvice
        end in
      mret {| t_treatment := treatment; t_sources := [] |}
  end.

(** [getTreatmentInfo], handler. *)
Definition getTreatmentInfo (disease : string) (symptoms : list string)
  : Action TreatmentInfo :=
  try_catch (getTreatmentInfo_try disease symptoms)
    (fun _ =>
       log EvConsoleError;;
       mret {| t_treatment := unableToFetch; t_sources := [] |}).

(** [ctx.runAction(internal.analysis.getTreatmentInfo, {disease, symptoms})]:
    the arguments pass the validators of the action or the call throws. *)
Definition runAction_getTreatmentInfo (disease symptoms : JsValue)
  : Action TreatmentInfo :=
  d ← lift (Validator.checked (Validator.v_string disease));
  s ← lift (Validator.checked (Validator.v_array_string symptoms));
  getTreatmentInfo d s.

(** The inner [try]/[catch] of [analyzeImage]: the text of the match, or
    the whole text, is parsed; the fallback payload replaces a parse error. *)
Definition jsonString (analysisText : string) : string :=
  match Regex.match_braces analysisText with
  | Some m => m
  | None => analysisText
  end.

Definition parseAnalysis (analysisText : string) : JSON :=
  match JSON_parse P (jsonString analysisText) with
  | Some v => v
  | None => fallbackPayload
  end.

(** The outer [try] block of [analyzeImage]. *)
Definition analyzeImage_try (imageBase64 : string) (analysisId : AnalysisId)
  : Action AnalysisId :=
  content ← chat (VisionRequest imageBase64);
  analysisText ←
    match content with
    | Some s => if truthy s then mret s else throw NoAnalysisReceived
    | None => throw NoAnalysisReceived
    end;
  let analysisResult := parseAnalysis analysisText in
  disease ← lift (getProp analysisResult "detectedDisease");
  symptoms ← lift (getProp analysisResult "symptoms");
  treatment ← runAction_getTreatmentInfo disease symptoms;
  confidence ← lift (getProp analysisResult "confidence");
  severity ← lift (getProp analysisResult "severity");
  (* the validators of [updateAnalysis] *)
  d ← lift (Validator.checked (Validator.v_string disease));
  c ← lift (Validator.checked (Validator.v_number confidence));
  sv ← lift (Validator.checked (Validator.v_severity severity));
  sy ← lift (Validator.checked (Validator.v_array_string symptoms));
  updateAnalysis {| u_analysisId := analysisId; u_detectedDisease := d;
                    u_confidence := c; u_severity := sv; u_symptoms := sy;
                    u_treatment := t_treatment treatment;
                    u_sources := t_sources treatment;
                    u_status := completed |};;
  mret analysisId.

(** The [catch] block of [analyzeImage]. *)
Definition analyzeImage_catch (analysisId : AnalysisId) (error : JsError)
  : Action AnalysisId :=
  log EvConsoleError;;
  updateAnalysis {| u_analysisId := analysisId;
                    u_detectedDisease := "Analysis Failed";
                    u_confidence := 0%Z; u_severity := moderate;
                    u_symptoms := ["Unable to analyze image"];
                    u_treatment := tryAgain;
                    u_sources := [];
                    u_status := failed |};;
  throw error.

(** [analyzeImage], handler. *)
Definition analyzeImage (imageBase64 : string) : Action AnalysisId :=
  analysisId ← createAnalysis (getAuthUserId P) analyzing;
  try_catch (analyzeImage_try imageBase64 analysisId)
            (analyzeImage_catch analysisId).

(** [getUserAnalyses]:
    [query("analyses").withIndex("by_user", q => q.eq("userId", userId))
       .order("desc").take(10)].
    The index orders the documents of one user by creation time, which is
    the order of the table; a result is a document with its id. *)
Definition by_user (u : UserId) (docs : list Analysis) : list (AnalysisId * Analysis) :=
  filter (fun p => userId p.2 = Some u) (imap (fun i a => (i, a)) docs).

Definition getUserAnalyses (w : World) : list (AnalysisId * Analysis) :=
  match getAuthUserId P with
  | None => []
  | Some u => take 10 (reverse (by_user u (analyses w)))
  end.

End WithPlatform.

End Backend.

(** ** [src/App.tsx]: the upload handler *)

Module Client.

Import JsString.

Inductive AppStatus := IDLE | ANALYZING | SEARCHING | COMPLETED | ERROR.

(** The two properties of a browser [File] that the handler reads. *)
Record File := { f_type : string; f_size : N }.

(** The state variables of [App] that the handler writes; the setters of
    [analysisResult] are only called from timers and from the resolution
    of the backend call, which are commands here. *)
Record AppState := {
  st_status : AppStatus;
  selectedImage : option string;
  error : option string
}.

Definition setError (e : option string) (st : AppState) : AppState :=
  {| st_status := st_status st; selectedImage := selectedImage st; error := e |}.
Definition setStatus (s : AppStatus) (st : AppState) : AppState :=
  {| st_status := s; selectedImage := selectedImage st; error := error st |}.
Definition setSelectedImage (i : option string) (st : AppState) : AppState :=
  {| st_status := st_status st; selectedImage := i; error := error st |}.

(** What a handler asks the browser to do. *)
Inductive Command :=
| ReadAsDataURL (f : File)
    (* [reader.readAsDataURL(file)]: the file read and its base64 conversion *)
| SetTimeout (ms : N)
    (* the timer that shows the mock result *)
| CallAnalyzeImage (imageBase64 : string).
    (* [analyzeImage({ imageBase64 })]: the call of the backend action *)

Definition invalidImage : string := "Please select a valid image file".
Definition tooLarge : string := "Image size must be less than 10MB".
Definition readFailed : string := "Failed to read image file".

Definition sizeLimit : N := 10 * 1024 * 1024.

(** [handleImageUpload], up to the start of the read.  [None] is a falsy
    [file].  The [catch] of the handler is not reached: neither the
    constructor of the reader nor [readAsDataURL] on a [File] throws. *)
Definition handleImageUpload (file : option File) (st : AppState)
  : AppState * list Command :=
  match file with
  | None => (st, [])
  | Some f =>
      if negb (startsWith "image/" (f_type f)) then
        (setStatus ERROR (setError (Some invalidImage) st), [])
      else if (sizeLimit <? f_size f)%N then
        (setStatus ERROR (setError (Some tooLarge) st), [])
      else
        (setStatus ANALYZING (setError None st), [ReadAsDataURL f])
  end.

(** [reader.onload], up to the call of the backend. *)
Definition onload (base64 : string) (st : AppState) : AppState * list Command :=
  (setStatus SEARCHING (setSelectedImage (Some base64) st),
   [SetTimeout 2000; CallAnalyzeImage base64]).

(** [reader.onerror]. *)
Definition onerror (st : AppState) : AppState * list Command :=
  (setStatus ERROR (setError (Some readFailed) st), []).

(** How the browser answers a read. *)
Inductive ReadOutcome := Loaded (dataUrl : string) | ReadError.

(** The handler followed by the reader callback of every read it started. *)
Fixpoint deliver (rd : ReadOutcome) (cmds : list Command) (st : AppState)
  : AppState * list Command :=
  match cmds with
  | [] => (st, [])
  | ReadAsDataURL f :: r =>
      let '(st1, c1) := match rd with
                        | Loaded u => onload u st
                        | ReadError => onerror st
                        end in
      let '(st2, c2) := deliver rd r st1 in
      (st2, ReadAsDataURL f :: c1 ++ c2)
  | c :: r =>
      let '(st2, c2) := deliver rd r st in (st2, c :: c2)
  end.

Definition upload (file : option File) (rd : ReadOutcome) (st : AppState)
  : AppState * list Command :=
  let '(st1, cmds) := handleImageUpload file st in deliver rd cmds st1.

End Client.

(** ** A JSON reader for the example runs

    [JSON.parse] is a field of [Platform] and every theorem below holds for
    all of its values.  The runs that are evaluated need one: this reader
    accepts objects, arrays, strings without escapes, integers and the three
    literals, with insignificant white space, which covers the texts of the
    examples.  A later binding of a key replaces an earlier one. *)

Module Json.

Definition is_ws (c : ascii) : bool :=
  let n := nat_of_ascii c in
  (n =? 32)%nat || (n =? 9)%nat || (n =? 10)%nat || (n =? 13)%nat.

Definition is_digit (c : ascii) : bool :=
  let n := nat_of_ascii c in (48 <=? n)%nat && (n <=? 57)%nat.

Fixpoint skip_ws (s : string) : string :=
  match s with
  | String c r => if is_ws c then skip_ws r else s
  | EmptyString => s
  end.

(** The characters of a string literal after its opening quote. *)
Fixpoint read_string (s : string) : option (string * string) :=
  match s with
  | EmptyString => None
  | String c r =>
      if Ascii.eqb c (ascii_of_nat 34) then Some (EmptyString, r)
      else if Ascii.eqb c (ascii_of_nat 92) then None
      else if (nat_of_ascii c <? 32)%nat then None
      else match read_string r with
           | Some (body, rest) => Some (String c body, rest)
           | None => None
           end
  end.

Fixpoint read_digits (acc : Z) (s : string) : Z * string :=
  match s with
  | String c r =>
      if is_digit c
      then read_digits (10 * acc + Z.of_nat (nat_of_ascii c - 48))%Z r
      else (acc, s)
  | EmptyString => (acc, s)
  end.

Definition read_literal (lit : string) (v : JSON) (s : string) : option (JSON * string) :=
  if JsString.startsWith lit s
  then Some (v, String.substring (String.length lit) (String.length s - String.length lit) s)
  else None.

Fixpoint put (k : string) (v : JSON) (fields : list (string * JSON)) : list (string * JSON) :=
  match fields with
  | [] => [(k, v)]
  | (k', v') :: r => if String.eqb k k' then (k, v) :: r else (k', v') :: put k v r
  end.

Fixpoint read_value (fuel : nat) (s : string) : option (JSON * string) :=
  match fuel with
  | O => None
  | S fuel =>
      match skip_ws s with
      | String c r =>
          if Ascii.eqb c "{" then
            match skip_ws r with
            | String c' r' =>
                if Ascii.eqb c' "}" then Some (JObj [], r')
                else read_members fuel (String c' r') []
            | EmptyString => None
            end
          else if Ascii.eqb c "[" then
            match skip_ws r with
            | String c' r' =>
                if Ascii.eqb c' "]" then Some (JArr [], r')
                else read_elements fuel (String c' r') []
            | EmptyString => None
            end
          else if Ascii.eqb c (ascii_of_nat 34) then
            match read_string r with
            | Some (body, rest) => Some (JStr body, rest)
            | None => None
            end
          else if Ascii.eqb c "-" then
            match r with
            | String d _ =>
                if is_digit d
                then let '(n, rest) := read_digits 0 r in Some (JNum (- n)%Z, rest)
                else None
            | EmptyString => None
            end
          else if is_digit c then
            let '(n, rest) := read_digits 0 (String c r) in Some (JNum n, rest)
          else if Ascii.eqb c "t" then read_literal "true" (JBool true) (String c r)
          else if Ascii.eqb c "f" then read_literal "false" (JBool false) (String c r)
          else if Ascii.eqb c "n" then read_literal "null" JNull (String c r)
          else None
      | EmptyString => None
      end
  end
with read_members (fuel : nat) (s : string) (acc : list (string * JSON))
  : option (JSON * string) :=
  match fuel with
  | O => None
  | S fuel =>
      match skip_ws s with
      | String q r =>
          if Ascii.eqb q (ascii_of_nat 34) then
            match read_string r with
            | Some (key, rest) =>
                match skip_ws rest with
                | String colon rest' =>
                    if Ascii.eqb colon ":" then
                      match read_value fuel rest' with
                      | Some (v, rest'') =>
                          match skip_ws rest'' with
                          | String sep tl =>
                              if Ascii.eqb sep "," then read_members fuel tl (put key v acc)
                              else if Ascii.eqb sep "}" then Some (JObj (put key v acc), tl)
                              else None
                          | EmptyString => None
                          end
                      | None => None
                      end
                    else None
                | EmptyString => None
                end
            | None => None
            end
          else None
      | EmptyString => None
      end
  end
with read_elements (fuel : nat) (s : string) (acc : list JSON)
  : option (JSON * string) :=
  match fuel with
  | O => None
  | S fuel =>
      match read_value fuel s with
      | Some (v, rest) =>
          match skip_ws rest with
          | String sep tl =>
              if Ascii.eqb sep "," then read_elements fuel tl (acc ++ [v])
              else if Ascii.eqb sep "]" then Some (JArr (acc ++ [v]), tl)
              else None
          | EmptyString => None
          end
      | None => None
      end
  end.

(** The whole text must be one value. *)
Definition parse (s : string) : option JSON :=
  match read_value (S (String.length s)) s with
  | Some (v, rest) =>
      match skip_ws rest with
      | EmptyString => Some v
      | _ => None
      end
  | None => None
  end.

End Json.

(** ** Runs of the backend *)

Definition emptyWorld : World := {| diseases := []; analyses := []; trace := [] |}.

(** One invocation of the backend from outside.  [createAnalysis] and
    [updateAnalysis] are internal mutations: they run as steps of
    [analyzeImage] only.  The two queries do not change the world. *)
Inductive Call :=
| CallSeedDiseases
| CallAnalyzeImage (P : Platform) (imageBase64 : string)
| CallGetTreatmentInfo (P : Platform) (disease : string) (symptoms : list string).

Definition step (w : World) (c : Call) : World :=
  match c with
  | CallSeedDiseases => (Seed.seedDiseases w).2
  | CallAnalyzeImage P img => (Backend.analyzeImage P img w).2
  | CallGetTreatmentInfo P d s => (Backend.getTreatmentInfo P d s w).2
  end.

(** The world after a sequence of invocations on an empty deployment. *)
Definition after (cs : list Call) : World := foldl step emptyWorld cs.

(** The statuses written to the document [id], in the order of the writes. *)
Definition status_writes (id : AnalysisId) (t : list Event) : list Status :=
  omap (fun e => match e with
                 | EvInsertAnalysis i s | EvPatchAnalysis i s =>
                     if decide (i = id) then Some s else None
                 | _ => None
                 end) t.

(** The calls of the chat-completion service in a trace. *)
Definition chat_calls (t : list Event) : list ChatRequest :=
  omap (fun e => match e with EvChatCompletion r => Some r | _ => None end) t.

(** [w'] is [w] with the events [t] added to its trace: the tables are the same. *)
Definition only_logs (w w' : World) (t : list Event) : Prop :=
  diseases w' = diseases w ∧ analyses w' = analyses w ∧ trace w' = (trace w ++ t)%list.

(** [w'] is [w] with more events in its trace, none of which writes the
    status of a document. *)
Definition quiet (w w' : World) : Prop :=
  ∃ t, only_logs w w' t ∧ ∀ id, status_writes id t = [].

(** The document that [analyzeImage] creates. *)
Definition pendingDoc (user : option UserId) : Analysis :=
  {| userId := user; imageUrl := None; imageStorageId := None;
     detectedDisease := ""; confidence := 0%Z; severity := moderate;
     symptoms := []; treatment := ""; sources := None; status := analyzing |}.

(** The document that the [catch] block of [analyzeImage] leaves. *)
Definition failedDoc (user : option UserId) : Analysis :=
  {| userId := user; imageUrl := None; imageStorageId := None;
     detectedDisease := "Analysis Failed"; confidence := 0%Z; severity := moderate;
     symptoms := ["Unable to analyze image"];
     treatment := "Please try again with a clearer image of the turmeric leaf.";
     sources := Some []; status := failed |}.

(** The world in which the [try] block of [analyzeImage] starts: the
    pending document has been created. *)
Definition pending (P : Platform) (w : World) : World :=
  (Backend.createAnalysis (getAuthUserId P) analyzing w).2.

(** The life of a document as its status writes tell it: created as
    "analyzing", then moved once, to [final]. *)
Definition lived (final : Status) (id : AnalysisId) (w : World) : Prop :=
  status_writes id (trace w) = [analyzing; final].

(** Every document of the table was created as "analyzing" and moved once,
    to "completed" or to "failed", which is its status; no status was
    written for an id without a document. *)
Definition settled (w : World) : Prop :=
  (∀ id a, analyses w !! id = Some a →
     (lived completed id w ∧ status a = completed)
     ∨ (lived failed id w ∧ status a = failed))
  ∧ (∀ id, (length (analyses w) ≤ id)%nat → status_writes id (trace w) = []).

(** The character [c] does not occur in [s]. *)
Fixpoint lacks (c : ascii) (s : string) : Prop :=
  match s with
  | EmptyString => True
  | String a r => a ≠ c ∧ lacks c r
  end.

(** The catalog query returns documents of the table it reads. *)
Definition reads_table (P : Platform) : Prop :=
  ∀ ds r, diseases_list P ds = Return r → r ⊆ ds.

(** Every treatment text of a catalog is non-empty, as in the seeded catalog. *)
Definition treatments_given (ds : list Disease) : Prop :=
  Forall (fun d => d_treatment d ≠ "") ds.

(** [p] is newer than [q]: it was created later. *)
Definition newer (p q : AnalysisId * Analysis) : Prop := q.1 < p.1.

(** ** Example platforms and texts *)

Module Sample.

Definition dq : string := String (ascii_of_nat 34) EmptyString.

(** A platform whose two chat calls and whose catalog query have the given
    outcomes; the catalog query returns the table as it is.  The texts of
    the examples are ASCII texts, on which [lowerUnicode] is not used. *)
Definition platform (user : option UserId)
    (vision advice : Outcome (option string)) (queryError : option JsError)
  : Platform :=
  {| getAuthUserId := user;
     chat_completion := fun req =>
       match req with
       | VisionRequest _ => vision
       | TreatmentRequest _ _ => advice
       end;
     JSON_parse := Json.parse;
     lowerUnicode := JsString.foldAscii;
     diseases_list := fun ds =>
       match queryError with
       | Some e => Throw e
       | None => Return ds
       end |}.

Definition seeded : World := (Seed.seedDiseases emptyWorld).2.

(** An answer of the model that wraps the object in prose. *)
Definition blightAnswer : string :=
  "Here is my analysis: {" ++ dq ++ "detectedDisease" ++ dq ++ ": " ++ dq ++ "Leaf Blight" ++ dq ++
  ", " ++ dq ++ "confidence" ++ dq ++ ": 85, " ++ dq ++ "severity" ++ dq ++ ": " ++ dq ++ "moderate" ++ dq ++
  ", " ++ dq ++ "symptoms" ++ dq ++ ": [" ++ dq ++ "Large brown patches" ++ dq ++ "], " ++
  dq ++ "summary" ++ dq ++ ": " ++ dq ++ "Brown patches on the margins" ++ dq ++ "}".

(** An answer without any JSON in it. *)
Definition proseAnswer : string := "The leaf shows large brown patches.".

Definition pdf : Client.File :=
  {| Client.f_type := "application/pdf"; Client.f_size := 11 * 1024 * 1024 |}.
Definition photo : Client.File :=
  {| Client.f_type := "image/jpeg"; Client.f_size := 10 * 1024 * 1024 |}.
Definition hugePhoto : Client.File :=
  {| Client.f_type := "image/png"; Client.f_size := 10 * 1024 * 1024 + 1 |}.

Definition idle : Client.AppState :=
  {| Client.st_status := Client.IDLE; Client.selectedImage := None; Client.error := None |}.

(** The model answers with an object wrapped in prose; user 3 is signed in. *)
Definition good : Platform :=
  platform (Some 3) (Return (Some blightAnswer)) (Return (Some "Spray weekly.")) None.

(** The model answers in prose only, and the advice call fails. *)
Definition prose : Platform :=
  platform (Some 3) (Return (Some proseAnswer)) (Throw (ServiceError "overloaded")) None.

(** The model answers with a brace span that is not JSON. *)
Definition braces : Platform :=
  platform (Some 3) (Return (Some "Result: {disease: blight}")) (Return None) None.

(** The vision call fails; user 5 is signed in. *)
Definition failing : Platform :=
  platform (Some 5) (Throw (ServiceError "rate limit")) (Return None) None.

(** Nobody is signed in. *)
Definition anonymous : Platform :=
  platform None (Return (Some blightAnswer)) (Return None) None.

(** The catalog query fails. *)
Definition noCatalog : Platform :=
  platform (Some 3) (Return (Some blightAnswer)) (Return None)
    (Some (ServiceError "query failed")).

(** A deployment that was seeded and then used: twelve analyses of user 3,
    with two of user 5 and one anonymous in between. *)
Definition busy : list Call :=
  [ CallSeedDiseases;
    CallAnalyzeImage good "a"; CallAnalyzeImage failing "b";
    CallAnalyzeImage good "c"; CallAnalyzeImage prose "d";
    CallAnalyzeImage good "e"; CallAnalyzeImage anonymous "f";
    CallAnalyzeImage good "g"; CallAnalyzeImage good "h";
    CallAnalyzeImage braces "i"; CallAnalyzeImage good "j";
    CallAnalyzeImage failing "k"; CallAnalyzeImage good "l";
    CallAnalyzeImage good "m"; CallAnalyzeImage prose "n";
    CallAnalyzeImage good "o" ].

End Sample.

(** ** The answer of the model, as the orchestrator reads it *)

(** The four fields that [analyzeImage] passes on, when the analysis result
    is an object whose fields pass the validators of [getTreatmentInfo] and
    [updateAnalysis]. *)
Definition answer_fields (v : JSON) : option (string * list string * number * Severity) :=
  match v with
  | JObj fields =>
      match Validator.v_string (assoc "detectedDisease" fields),
            Validator.v_array_string (assoc "symptoms" fields),
            Validator.v_number (assoc "confidence" fields),
            Validator.v_severity (assoc "severity" fields) with
      | Some d, Some sy, Some c, Some sv => Some (d, sy, c, sv)
      | _, _, _, _ => None
      end
  | _ => None
  end.

(** The disease names that the prompt of [analyzeImage] offers to the model
    (the list under "Common turmeric diseases to look for"). *)
Definition promptDiseases : list string :=
  [ "Leaf Spot Disease"; "Rhizome Rot"; "Leaf Blight"; "Bacterial Wilt"; "Healthy Plant" ].

(** The events that one run added to the trace. *)
Definition added (w w' : World) (t : list Event) : Prop :=
  trace w' = (trace w ++ t)%list.

(** The number of invocations of [analyzeImage] in a sequence of calls. *)
Fixpoint analyze_calls (cs : list Call) : nat :=
  match cs with
  | [] => 0
  | CallAnalyzeImage _ _ :: r => S (analyze_calls r)
  | _ :: r => analyze_calls r
  end.

(** The run from [w] to [w'] made exactly the chat-completion calls [cs]. *)
Definition calls (w w' : World) (cs : list ChatRequest) : Prop :=
  ∃ t, added w w' t ∧ chat_calls t = cs.

(** ** [src/App.tsx]: the state of the view *)

Module View.

Import JsString.

(** The interface [AnalysisResult]; [_id] is a string at run time. *)
Record Result := {
  r_id : string;
  r_detectedDisease : string;
  r_confidence : number;
  r_severity : Severity;
  r_symptoms : list string;
  r_treatment : string;
  r_sources : option (list Source);
  r_status : Status
}.

(** The four state variables of [App] that drive the home view. *)
Record State := {
  v_status : Client.AppStatus;
  v_selectedImage : option string;
  v_analysisResult : option Result;
  v_error : option string
}.

(** [isMockId]. *)
Definition isMockId (id : string) : bool :=
  includes id "mock" || String.eqb id "debug_test".

(** The argument of [useQuery(api.analysis.getAnalysis, ...)]: the id that
    is fetched, or [None] for "skip". *)
Definition queryArg (st : State) : option string :=
  match v_analysisResult st with
  | Some r => if negb (isMockId (r_id r)) then Some (r_id r) else None
  | None => None
  end.

(** The result that the 15 second timer shows. *)
Definition timeoutMock : Result :=
  {| r_id := "timeout_mock_analysis";
     r_detectedDisease := "Leaf Analysis Complete";
     r_confidence := 78%Z;
     r_severity := moderate;
     r_symptoms := [ "Analysis completed with limited data";
                     "Possible leaf discoloration detected";
                     "Recommend manual inspection" ];
     r_treatment := "# Analysis Results

## Status
The analysis has been completed based on available data.

## Recommendations
- **Visual Inspection**: Examine the leaf closely for any unusual spots or discoloration
- **Preventive Care**: Maintain proper watering and drainage
- **Monitor Progress**: Check the plant regularly for changes

## Next Steps
- If symptoms persist, consult with a local agricultural expert
- Consider uploading a clearer image for more detailed analysis
- Ensure proper plant care practices";
     r_sources := Some [];
     r_status := completed |}.

(** The result that the 2 second timer of [reader.onload] shows. *)
Definition forcedMock : Result :=
  {| r_id := "forced_mock_analysis";
     r_detectedDisease := "Leaf Spot Disease";
     r_confidence := 85%Z;
     r_severity := moderate;
     r_symptoms := [ "Small circular brown spots on leaves";
                     "Yellowing around affected areas";
                     "Slight leaf curling" ];
     r_treatment := "LEAF SPOT DISEASE TREATMENT

IMMEDIATE ACTIONS:
• Remove affected leaves immediately
• Improve air circulation around plants
• Reduce watering frequency

ORGANIC TREATMENT:
• Apply neem oil spray (5ml/L water) every 7 days
• Use copper-based fungicide as directed
• Ensure proper drainage

PREVENTION:
• Avoid overhead watering
• Maintain proper plant spacing
• Remove plant debris regularly";
     r_sources := Some [];
     r_status := completed |}.

(** The result set when the call of the backend resolves with [analysisId]. *)
Definition placeholder (analysisId : string) : Result :=
  {| r_id := analysisId;
     r_detectedDisease := "";
     r_confidence := 0%Z;
     r_severity := moderate;
     r_symptoms := [];
     r_treatment := "";
     r_sources := None;
     r_status := analyzing |}.

Definition is_completed (s : Client.AppStatus) : bool :=
  match s with Client.COMPLETED => true | _ => false end.
Definition is_error (s : Client.AppStatus) : bool :=
  match s with Client.ERROR => true | _ => false end.

(** The first effect: a completed document of the query replaces the result,
    unless the status is COMPLETED already.  [getAnalysis] is [None] while
    the query is skipped, loading, or has found no document. *)
Definition effectCompleted (getAnalysis : option Result) (st : State) : State :=
  match getAnalysis with
  | Some doc =>
      if bool_decide (r_status doc = completed) && negb (is_completed (v_status st))
      then {| v_status := Client.COMPLETED; v_selectedImage := v_selectedImage st;
              v_analysisResult := Some doc; v_error := v_error st |}
      else st
  | None => st
  end.

(** The second effect: a failed document of the query shows an error. *)
Definition effectFailed (getAnalysis : option Result) (st : State) : State :=
  match getAnalysis with
  | Some doc =>
      if bool_decide (r_status doc = failed) && negb (is_error (v_status st))
      then {| v_status := Client.ERROR; v_selectedImage := v_selectedImage st;
              v_analysisResult := v_analysisResult st;
              v_error := Some "Analysis failed. Please try again." |}
      else st
  | None => st
  end.

(** The third effect arms a 15 second timer while the status is ANALYZING
    or SEARCHING, and clears it when the status changes. *)
Definition timeoutArmed (s : Client.AppStatus) : bool :=
  match s with Client.ANALYZING | Client.SEARCHING => true | _ => false end.

(** The callback of that timer; [captured] is the status of the render that
    armed it. *)
Definition timeoutCallback (captured : Client.AppStatus) (st : State) : State :=
  if negb (is_completed captured)
  then {| v_status := Client.COMPLETED; v_selectedImage := v_selectedImage st;
          v_analysisResult := Some timeoutMock; v_error := v_error st |}
  else st.

(** The reader callbacks write the status, the image and the error as in
    [Client]; the result is not touched. *)
Definition forget (st : State) : Client.AppState :=
  {| Client.st_status := v_status st; Client.selectedImage := v_selectedImage st;
     Client.error := v_error st |}.

Definition remember (st : State) (c : Client.AppState) : State :=
  {| v_status := Client.st_status c; v_selectedImage := Client.selectedImage c;
     v_analysisResult := v_analysisResult st; v_error := Client.error c |}.

Definition onload (base64 : string) (st : State) : State * list Client.Command :=
  let '(c, cmds) := Client.onload base64 (forget st) in (remember st c, cmds).

(** The callback of the 2 second timer set by [reader.onload]; nothing
    clears that timer. *)
Definition forcedMockCallback (st : State) : State :=
  {| v_status := Client.COMPLETED; v_selectedImage := v_selectedImage st;
     v_analysisResult := Some forcedMock; v_error := v_error st |}.

(** The continuation of [await analyzeImage(...)] in [reader.onload];
    [captured] is the status of the render whose [handleImageUpload] was
    called. *)
Definition analysisResolved (captured : Client.AppStatus) (analysisId : string)
    (st : State) : State :=
  if negb (is_completed captured)
  then {| v_status := v_status st; v_selectedImage := v_selectedImage st;
          v_analysisResult := Some (placeholder analysisId); v_error := v_error st |}
  else st.

(** The [catch] around that call only logs. *)
Definition analysisRejected (st : State) : State := st.

(** [resetAnalysis]. *)
Definition resetAnalysis (st : State) : State :=
  {| v_status := Client.IDLE; v_selectedImage := None;
     v_analysisResult := None; v_error := None |}.

(** What [HomeView] renders. *)
Inductive Screen :=
| LoadingState (status : Client.AppStatus) (selectedImage : option string)
| ResultDisplay (image : string) (result : Result)
    (* carries the button that calls [resetAnalysis] *)
| ErrorStateWithContext (error : string) (selectedImage : option string)
    (* carries the button that calls [resetAnalysis] *)
| IdleState (pickerDisabled : bool).
    (* the welcome screen with the [ImagePicker]; no reset button *)

(** [renderIdleState]: the picker is disabled unless the status is IDLE. *)
Definition renderIdleState (st : State) : Screen :=
  IdleState (match v_status st with Client.IDLE => false | _ => true end).

(** [renderCurrentState]. *)
Definition renderCurrentState (st : State) : Screen :=
  match v_status st with
  | Client.ANALYZING | Client.SEARCHING =>
      LoadingState (v_status st) (v_selectedImage st)
  | Client.COMPLETED =>
      match v_analysisResult st, v_selectedImage st with
      | Some result, Some image =>
          if truthy image then ResultDisplay image result else renderIdleState st
      | _, _ => renderIdleState st
      end
  | Client.ERROR =>
      ErrorStateWithContext
        (match v_error st with
         | Some e => if truthy e then e else "An unexpected error occurred"
         | None => "An unexpected error occurred"
         end)
        (v_selectedImage st)
  | Client.IDLE => renderIdleState st
  end.

(** What can happen between [reader.onload] and its 2 second timer: the
    backend call resolves or rejects, and the effects run on what the query
    delivers. *)
Inductive BackendEvent :=
| Resolved (captured : Client.AppStatus) (analysisId : string)
| Rejected
| QueryDelivers (getAnalysis : option Result).

Definition onBackendEvent (st : State) (e : BackendEvent) : State :=
  match e with
  | Resolved captured id => analysisResolved captured id st
  | Rejected => analysisRejected st
  | QueryDelivers doc => effectFailed doc (effectCompleted doc st)
  end.

End View.

(** ** Further example inputs *)

Module Cases.

Import Sample.

(** The model answers with a severity outside the three literals. *)
Definition severeAnswer : string :=
  "{" ++ dq ++ "detectedDisease" ++ dq ++ ": " ++ dq ++ "Leaf Blight" ++ dq ++
  ", " ++ dq ++ "confidence" ++ dq ++ ": 85, " ++ dq ++ "severity" ++ dq ++ ": " ++
  dq ++ "severe" ++ dq ++ ", " ++ dq ++ "symptoms" ++ dq ++ ": []}".

Definition severe : Platform :=
  platform (Some 3) (Return (Some severeAnswer)) (Return None) None.

(** A case mapping that also folds the accented capitals of Latin-1, which
    UTF-8 writes as the byte 195 followed by a byte from 128 to 158 (151
    apart, which writes the multiplication sign). *)
Fixpoint foldLatin1 (s : string) : string :=
  match s with
  | EmptyString => EmptyString
  | String a t =>
      match t with
      | String b r =>
          let n := nat_of_ascii b in
          if (nat_of_ascii a =? 195)%nat && (128 <=? n)%nat && (n <=? 158)%nat
             && negb (n =? 151)%nat
          then String a (String (ascii_of_nat (n + 32)) (foldLatin1 r))
          else String (JsString.lower_ascii a) (foldLatin1 t)
      | EmptyString => String (JsString.lower_ascii a) EmptyString
      end
  end.

(** The platform [good] on an engine with that case mapping. *)
Definition latin : Platform :=
  {| getAuthUserId := getAuthUserId good;
     chat_completion := chat_completion good;
     JSON_parse := JSON_parse good;
     lowerUnicode := foldLatin1;
     diseases_list := diseases_list good |}.

(** A catalog with two spellings of an accented name. *)
Definition accented : World :=
  {| diseases :=
       [ {| name := "CAFÉ ROT"; scientificName := ""; d_severity := low;
            d_symptoms := []; causes := ""; prevention := [];
            d_treatment := "Treatment of the capital spelling"; description := "" |};
         {| name := "café rot"; scientificName := ""; d_severity := low;
            d_symptoms := []; causes := ""; prevention := [];
            d_treatment := "Treatment of the small spelling"; description := "" |} ];
     analyses := []; trace := [] |}.

(** A world with one pending analysis of user 3. *)
Definition onePending : World :=
  (Backend.createAnalysis (Some 3) analyzing Sample.seeded).2.

(** A view that shows the forced result over an uploaded image. *)
Definition showingMock : View.State :=
  {| View.v_status := Client.COMPLETED;
     View.v_selectedImage := Some "data:image/jpeg;base64,AAAA";
     View.v_analysisResult := Some View.forcedMock;
     View.v_error := None |}.

(** A view that waits for the read of an accepted file. *)
Definition reading : View.State :=
  {| View.v_status := Client.ANALYZING; View.v_selectedImage := None;
     View.v_analysisResult := None; View.v_error := None |}.

(** The document of an analysis made on [busy] while nobody is signed in. *)
Definition anonymousDoc : Analysis :=
  Eval vm_compute in
    default (pendingDoc None)
      (analyses (Backend.analyzeImage anonymous "p" (after busy)).2 !! 15).

(** A completed document as the query delivers it. *)
Definition storedDoc : View.Result :=
  {| View.r_id := "jd7f3k2m9";
     View.r_detectedDisease := "Leaf Blight";
     View.r_confidence := 85%Z;
     View.r_severity := moderate;
     View.r_symptoms := ["Large brown patches"];
     View.r_treatment := "Apply copper oxychloride or mancozeb fungicide.";
     View.r_sources := Some [];
     View.r_status := completed |}.

End Cases.


(** * Properties *)

Open Scope list_scope.

(** ** Seeding *)

Section SeedFacts.

Import Seed.

Lemma insert_all_diseases ds w : diseases (insert_all ds w) = diseases w ++ ds.
Proof.
  revert w. induction ds as [|d r IH]; intros w; simpl.
  - by rewrite app_nil_r.
  - rewrite IH. simpl. by rewrite <- app_assoc.
Qed.

Lemma insert_all_analyses ds w : analyses (insert_all ds w) = analyses w.
Proof. revert w. induction ds as [|d r IH]; intros w; simpl; [done|]. by rewrite IH. Qed.

Lemma insert_all_trace ds w :
  trace (insert_all ds w) = trace w ++ map EvInsertDisease ds.
Proof.
  revert w. induction ds as [|d r IH]; intros w; simpl.
  - by rewrite app_nil_r.
  - rewrite IH. simpl. by rewrite <- app_assoc.
Qed.

Lemma inserted_app t1 t2 : inserted (t1 ++ t2) = inserted t1 ++ inserted t2.
Proof. apply omap_app. Qed.

Lemma inserted_map ds : inserted (map EvInsertDisease ds) = ds.
Proof. induction ds as [|d r IH]; simpl; [done|]. unfold inserted in *. simpl. by rewrite IH. Qed.

Lemma seedDiseases_seeded w :
  diseases w ≠ [] → seedDiseases w = ("Diseases already seeded", w).
Proof. unfold seedDiseases, first. destruct (diseases w); simpl; [congruence|done]. Qed.

Lemma seedDiseases_leaves_catalog w : diseases (seedDiseases w).2 ≠ [].
Proof.
  unfold seedDiseases, first. destruct (diseases w) as [|d r] eqn:Hd.
  - cbn [head snd]. rewrite insert_all_diseases, Hd. discriminate.
  - cbn [head snd]. rewrite Hd. discriminate.
Qed.

(** C5.  Seeding is idempotent.  On a catalog with at least one entry
    [seedDiseases] leaves the database as it is, inserts nothing and reports
    "Diseases already seeded"; on the empty catalog it inserts the five
    fixed entries, each once and in the order of the source; and the
    database after two invocations is the database after one. *)
Theorem seedDiseases_idempotent (w : World) :
  (diseases w ≠ [] → seedDiseases w = ("Diseases already seeded", w))
  ∧ (diseases w = [] →
       ∃ w', seedDiseases w = ("Diseases seeded successfully", w')
             ∧ diseases w' = seed_entries
             ∧ length (diseases w') = 5
             ∧ inserted (trace w') = inserted (trace w) ++ seed_entries
             ∧ analyses w' = analyses w)
  ∧ seedDiseases (seedDiseases w).2 = ("Diseases already seeded", (seedDiseases w).2).
Proof.
  split; [apply seedDiseases_seeded|]. split.
  - intros Hemp. unfold seedDiseases, first. rewrite Hemp. simpl head. cbv iota.
    eexists. split; [reflexivity|].
    rewrite insert_all_diseases, insert_all_trace, insert_all_analyses, Hemp.
    rewrite inserted_app, inserted_map. done.
  - apply seedDiseases_seeded, seedDiseases_leaves_catalog.
Qed.

End SeedFacts.

(** ** The upload handler *)

Section ClientFacts.

Import Client JsString.

(** C6.  A file whose MIME type does not start with "image/" sets the
    error 'Please select a valid image file' and the status ERROR, and the
    whole flow of the upload issues no command: no file read with its
    base64 conversion, no timer and no call of the analysis backend. *)
Theorem non_image_rejected_before_any_io (f : File) (rd : ReadOutcome) (st : AppState) :
  startsWith "image/" (f_type f) = false →
  handleImageUpload (Some f) st
    = (setStatus ERROR (setError (Some invalidImage) st), [])
  ∧ upload (Some f) rd st
    = ({| st_status := ERROR; selectedImage := selectedImage st;
          error := Some "Please select a valid image file" |}, []).
Proof.
  intros Hty. unfold upload, handleImageUpload. rewrite Hty. simpl. done.
Qed.

Lemma non_image_rejected_witness :
  startsWith "image/" (f_type Sample.pdf) = false
  ∧ upload (Some Sample.pdf) (Loaded "data") Sample.idle
    = ({| st_status := ERROR; selectedImage := None;
          error := Some "Please select a valid image file" |}, []).
Proof.
  split; [reflexivity|].
  apply (non_image_rejected_before_any_io Sample.pdf (Loaded "data") Sample.idle).
  reflexivity.
Defined.

(** C7 as stated fails: a file larger than 10 MB whose type is not an
    image type is rejected by the type check, which comes first, with the
    message of the type check. *)
Lemma large_non_image_gets_type_message :
  (sizeLimit < f_size Sample.pdf)%N
  ∧ error (handleImageUpload (Some Sample.pdf) Sample.idle).1
    = Some "Please select a valid image file"
  ∧ error (handleImageUpload (Some Sample.pdf) Sample.idle).1
    ≠ Some "Image size must be less than 10MB".
Proof. split; [reflexivity|]. split; [reflexivity|discriminate]. Qed.

(** C7, amended.  A file of an image type that is strictly larger than
    10 * 1024 * 1024 bytes is rejected with 'Image size must be less than
    10MB', the status becomes ERROR and nothing is read or sent; a file of
    at most that size is never given that message, and when its type is an
    image type the handler goes on to ANALYZING and starts the read. *)
Theorem oversized_image_rejected (f : File) (st : AppState) :
  (startsWith "image/" (f_type f) = true → (10 * 1024 * 1024 < f_size f)%N →
     handleImageUpload (Some f) st
     = ({| st_status := ERROR; selectedImage := selectedImage st;
           error := Some "Image size must be less than 10MB" |}, []))
  ∧ ((f_size f ≤ 10 * 1024 * 1024)%N →
     error (handleImageUpload (Some f) st).1 ≠ Some "Image size must be less than 10MB"
     ∧ (startsWith "image/" (f_type f) = true →
        handleImageUpload (Some f) st
        = ({| st_status := ANALYZING; selectedImage := selectedImage st;
              error := None |}, [ReadAsDataURL f]))).
Proof.
  unfold handleImageUpload. split.
  - intros Hty Hsz. rewrite Hty. simpl negb. cbv iota.
    assert ((sizeLimit <? f_size f)%N = true) as ->.
    { apply N.ltb_lt. exact Hsz. }
    reflexivity.
  - intros Hsz.
    assert ((sizeLimit <? f_size f)%N = false) as Hlt.
    { apply N.ltb_ge. exact Hsz. }
    split.
    + destruct (startsWith "image/" (f_type f)); simpl; [rewrite Hlt|]; simpl; discriminate.
    + intros Hty. rewrite Hty, Hlt. reflexivity.
Qed.

End ClientFacts.


(** ** The history query *)

Section QueryFacts.

Import Backend.

Lemma elem_of_by_user u docs i a :
  (i, a) ∈ by_user u docs ↔ docs !! i = Some a ∧ userId a = Some u.
Proof.
  unfold by_user. rewrite list_elem_of_filter, elem_of_lookup_imap. simpl. split.
  - intros [Hu (j & b & Heq & Hj)]. by simplify_eq.
  - intros [Hi Hu]. split; [done|]. by exists i, a.
Qed.

Lemma indexed_sorted (docs : list Analysis) k :
  StronglySorted (flip newer) (imap (fun i a => (k + i, a)) docs).
Proof.
  revert k. induction docs as [|d r IH]; intros k; simpl; [constructor|].
  constructor.
  - rewrite (imap_ext _ (fun i a => (S k + i, a))); [apply IH|].
    intros i x _. simpl. f_equal. lia.
  - apply Forall_forall. intros [j b] Hin.
    apply elem_of_lookup_imap in Hin as (i & y & Heq & _).
    unfold compose in Heq. simplify_eq.
    unfold flip, newer. simpl. lia.
Qed.

Lemma filter_sorted {A} (R : relation A) (Q : A → Prop) `{!∀ x, Decision (Q x)} l :
  StronglySorted R l → StronglySorted R (filter Q l).
Proof.
  induction 1 as [|x l Hl IH Hx]; [constructor|].
  rewrite filter_cons. destruct (decide (Q x)); [|done].
  constructor; [done|].
  apply Forall_forall. intros y Hy. apply list_elem_of_filter in Hy as [_ Hy].
  rewrite Forall_forall in Hx. auto.
Qed.

Lemma reverse_sorted {A} (R : relation A) l :
  StronglySorted R l → StronglySorted (flip R) (reverse l).
Proof.
  induction 1 as [|x l Hl IH Hx]; [constructor|].
  rewrite reverse_cons. apply StronglySorted_app. split; [|split].
  - intros y z Hy Hz. apply list_elem_of_singleton in Hz as ->.
    rewrite elem_of_reverse in Hy. rewrite Forall_forall in Hx. unfold flip. auto.
  - done.
  - repeat constructor.
Qed.

Lemma by_user_newest_first u docs :
  StronglySorted newer (reverse (by_user u docs)).
Proof.
  apply (reverse_sorted (flip newer)). unfold by_user. apply filter_sorted.
  rewrite (imap_ext _ (fun i a => (0 + i, a))); [apply indexed_sorted|done].
Qed.

(** C9.  Without an authenticated user [getUserAnalyses] returns the empty
    list, whatever the table holds: it does not throw and reads no
    document of any user. *)
Theorem getUserAnalyses_anonymous (P : Platform) (w : World) :
  getAuthUserId P = None → getUserAnalyses P w = [].
Proof. intros Hnone. unfold getUserAnalyses. by rewrite Hnone. Qed.

(** C8.  For the authenticated user [u], [getUserAnalyses] returns at most
    ten documents; each of them is a document of the table owned by [u];
    they come newest first; and a document of [u] that is not returned is
    older than each of the ten that are (so all documents of [u] are
    returned when there are at most ten). *)
Theorem getUserAnalyses_recent_ten (P : Platform) (w : World) (u : UserId) :
  getAuthUserId P = Some u →
  (length (getUserAnalyses P w) ≤ 10)%nat
  ∧ (∀ i a, (i, a) ∈ getUserAnalyses P w → analyses w !! i = Some a ∧ userId a = Some u)
  ∧ StronglySorted newer (getUserAnalyses P w)
  ∧ (∀ i a, analyses w !! i = Some a → userId a = Some u →
       (i, a) ∈ getUserAnalyses P w
       ∨ (length (getUserAnalyses P w) = 10
          ∧ ∀ q, q ∈ getUserAnalyses P w → newer q (i, a))).
Proof.
  intros Hu. unfold getUserAnalyses. rewrite Hu.
  set (L := reverse (by_user u (analyses w))).
  assert (StronglySorted newer (take 10 L ++ drop 10 L)) as Hsorted.
  { rewrite take_drop. apply by_user_newest_first. }
  split; [|split; [|split]].
  - rewrite length_take. lia.
  - intros i a Hin. apply elem_of_take in Hin as (j & Hj & _).
    apply elem_of_by_user, elem_of_reverse, list_elem_of_lookup. eauto.
  - eapply StronglySorted_app_1_l, Hsorted.
  - intros i a Hi Ha.
    assert ((i, a) ∈ take 10 L ++ drop 10 L) as Hin.
    { rewrite take_drop. apply elem_of_reverse, elem_of_by_user. done. }
    apply elem_of_app in Hin as [Hin|Hin]; [by left|right]. split.
    + apply length_take_le. destruct (decide (10 ≤ length L)%nat); [done|].
      rewrite drop_ge in Hin by lia. by apply elem_of_nil in Hin.
    + intros q Hq. eapply StronglySorted_app_1_elem_of; eauto.
Qed.

End QueryFacts.

(** ** The regular expression *)

Section RegexFacts.

Import Regex.

Local Open Scope string_scope.

Lemma from_first_open_spec s suffix :
  from_first_open s = Some suffix ↔
  ∃ pre rest, s = pre ++ String open_brace rest
              ∧ suffix = String open_brace rest ∧ lacks open_brace pre.
Proof.
  revert suffix. induction s as [|c r IH]; intros suffix; simpl.
  - split; [discriminate|]. intros (pre & rest & Heq & _). by destruct pre.
  - destruct (Ascii.eqb_spec c open_brace) as [->|Hne].
    + split.
      * intros [= <-]. by exists "", r.
      * intros (pre & rest & Heq & -> & Hpre). destruct pre as [|a pre]; simpl in *.
        -- by rewrite Heq.
        -- injection Heq as <- _. by destruct Hpre.
    + rewrite IH. split.
      * intros (pre & rest & -> & -> & Hpre). by exists (String c pre), rest.
      * intros (pre & rest & Heq & -> & Hpre). destruct pre as [|a pre]; simpl in *.
        -- by injection Heq as -> _.
        -- injection Heq as <- ->. exists pre, rest. by destruct Hpre.
Qed.

Lemma upto_last_close_none s : upto_last_close s = None ↔ lacks close_brace s.
Proof.
  induction s as [|c r IH]; simpl; [done|].
  destruct (upto_last_close r) as [m|].
  - split; [discriminate|]. intros [_ Hr]. by apply IH in Hr.
  - destruct (Ascii.eqb_spec c close_brace) as [->|Hne].
    + split; [discriminate|]. by intros [? _].
    + split; [|done]. intros _. split; [done|]. by apply IH.
Qed.

Lemma upto_last_close_spec s m :
  upto_last_close s = Some m ↔
  ∃ body post, s = body ++ String close_brace post
               ∧ m = body ++ String close_brace "" ∧ lacks close_brace post.
Proof.
  revert m. induction s as [|c r IH]; intros m; simpl.
  - split; [discriminate|]. intros (body & post & Heq & _). by destruct body.
  - destruct (upto_last_close r) as [m'|] eqn:Hr.
    + split.
      * intros [= <-]. destruct (proj1 (IH m') eq_refl) as (body & post & -> & -> & Hpost).
        by exists (String c body), post.
      * intros (body & post & Heq & -> & Hpost). destruct body as [|a body]; simpl in *.
        -- injection Heq as -> ->. apply upto_last_close_none in Hpost. congruence.
        -- injection Heq as <- ->. f_equal. f_equal.
           assert (Some m' = Some (body ++ String close_brace "")) as [= ->]; [|done].
           apply IH. by exists body, post.
    + apply upto_last_close_none in Hr.
      destruct (Ascii.eqb_spec c close_brace) as [->|Hne].
      * split.
        -- intros [= <-]. by exists "", r.
        -- intros (body & post & Heq & -> & Hpost). destruct body as [|a body]; simpl in *.
           ++ done.
           ++ injection Heq as <- ->. exfalso. clear -Hr.
              induction body as [|b body IHb]; simpl in Hr; [by destruct Hr|].
              destruct Hr as [_ Hr]. auto.
      * split; [discriminate|].
        intros (body & post & Heq & -> & Hpost). destruct body as [|a body]; simpl in *.
        -- by injection Heq as -> _.
        -- injection Heq as <- ->. exfalso. clear -Hr.
           induction body as [|b body IHb]; simpl in Hr; [by destruct Hr|].
           destruct Hr as [_ Hr]. auto.
Qed.

(** [match_braces] is the match of the regular expression: the span from
    the first open brace of the text to its last close brace. *)
Lemma match_braces_spec text m :
  match_braces text = Some m ↔
  ∃ pre body post,
    text = pre ++ String open_brace (body ++ String close_brace post)
    ∧ m = String open_brace (body ++ String close_brace "")
    ∧ lacks open_brace pre ∧ lacks close_brace post.
Proof.
  unfold match_braces. split.
  - destruct (from_first_open text) as [[|c r]|] eqn:Hopen; [done| |done].
    apply from_first_open_spec in Hopen as (pre & rest & -> & [= -> ->] & Hpre).
    destruct (upto_last_close rest) as [m'|] eqn:Hclose; [|done].
    apply upto_last_close_spec in Hclose as (body & post & -> & -> & Hpost).
    intros [= <-]. by exists pre, body, post.
  - intros (pre & body & post & -> & -> & Hpre & Hpost).
    assert (from_first_open (pre ++ String open_brace (body ++ String close_brace post))
            = Some (String open_brace (body ++ String close_brace post))) as ->.
    { apply from_first_open_spec. by exists pre, (body ++ String close_brace post). }
    assert (upto_last_close (body ++ String close_brace post)
            = Some (body ++ String close_brace "")) as ->; [|done].
    apply upto_last_close_spec. by exists body, post.
Qed.

(** Without a span the whole text is parsed. *)
Lemma jsonString_cases text :
  (∃ m, match_braces text = Some m ∧ Backend.jsonString text = m)
  ∨ (match_braces text = None ∧ Backend.jsonString text = text).
Proof.
  unfold Backend.jsonString. destruct (match_braces text) as [m|]; [left|right]; eauto.
Qed.

End RegexFacts.

(** ** Treatment lookup *)

Section TreatmentFacts.

Import Backend JsString.

Variable P : Platform.

Lemma bind_run {A B} (c : Action A) (k : A → Action B) w :
  (c ≫= k) w = match c w with
               | (Return a, w') => k a w'
               | (Throw e, w') => (Throw e, w')
               end.
Proof. reflexivity. Qed.

Lemma only_logs_emit w e : only_logs w (emit e w) [e].
Proof. by repeat split. Qed.

Lemma only_logs_trans w1 w2 w3 t1 t2 :
  only_logs w1 w2 t1 → only_logs w2 w3 t2 → only_logs w1 w3 (t1 ++ t2).
Proof.
  intros (Hd1 & Ha1 & Ht1) (Hd2 & Ha2 & Ht2). repeat split; [congruence..|].
  rewrite Ht2, Ht1. by rewrite app_assoc.
Qed.

Lemma truthy_nonempty s : truthy s = true → s ≠ "".
Proof. by destruct s. Qed.

(** The four ways [getTreatmentInfo] can run. *)
Lemma getTreatmentInfo_cases disease symptoms w :
  let req := TreatmentRequest disease symptoms in
  match diseases_list P (diseases w) with
  | Throw _ =>
      getTreatmentInfo P disease symptoms w
      = (Return {| t_treatment := unableToFetch; t_sources := [] |},
         emit EvConsoleError (emit EvQueryDiseases w))
  | Return ds =>
      match List.find (matchesDisease P disease) ds with
      | Some d =>
          getTreatmentInfo P disease symptoms w
          = (Return {| t_treatment := d_treatment d; t_sources := [] |},
             emit EvQueryDiseases w)
      | None =>
          match chat_completion P req with
          | Throw _ =>
              getTreatmentInfo P disease symptoms w
              = (Return {| t_treatment := unableToFetch; t_sources := [] |},
                 emit EvConsoleError (emit (EvChatCompletion req) (emit EvQueryDiseases w)))
          | Return content =>
              getTreatmentInfo P disease symptoms w
              = (Return {| t_treatment :=
                             match content with
                             | Some s => if truthy s then s else consultAdvice
                             | None => consultAdvice
                             end;
                           t_sources := [] |},
                 emit (EvChatCompletion req) (emit EvQueryDiseases w))
          end
      end
  end.
Proof.
  unfold getTreatmentInfo, getTreatmentInfo_try, try_catch.
  rewrite bind_run. unfold runQuery_diseases_list.
  destruct (diseases_list P (diseases w)) as [ds|e]; [|reflexivity].
  destruct (List.find (matchesDisease P disease) ds) as [d|]; [reflexivity|].
  rewrite bind_run. unfold chat.
  destruct (chat_completion P (TreatmentRequest disease symptoms)); reflexivity.
Qed.

Lemma find_first {A} (f : A → bool) pre d post :
  Forall (fun x => f x = false) pre → f d = true →
  List.find f (pre ++ d :: post) = Some d.
Proof.
  induction 1 as [|x pre Hx _ IH]; intros Hd; simpl.
  - by rewrite Hd.
  - rewrite Hx. auto.
Qed.

(** [getTreatmentInfo] returns, with an empty list of sources, and only adds
    events to the trace, none of which writes a status. *)
Lemma getTreatmentInfo_returns disease symptoms w :
  ∃ r w' t, getTreatmentInfo P disease symptoms w = (Return r, w')
            ∧ only_logs w w' t
            ∧ (∀ id, status_writes id t = [])
            ∧ t_sources r = [].
Proof.
  pose proof (getTreatmentInfo_cases disease symptoms w) as H. cbv zeta in H.
  destruct (diseases_list P (diseases w)) as [ds|e].
  - destruct (List.find (matchesDisease P disease) ds) as [d|].
    + do 3 eexists. split; [exact H|]. split; [apply only_logs_emit|]. done.
    + destruct (chat_completion P (TreatmentRequest disease symptoms)).
      * do 3 eexists. split; [exact H|].
        split; [eapply only_logs_trans; apply only_logs_emit|]. done.
      * do 3 eexists. split; [exact H|].
        split; [eapply only_logs_trans; [eapply only_logs_trans|]; apply only_logs_emit|].
        done.
  - do 3 eexists. split; [exact H|].
    split; [eapply only_logs_trans; apply only_logs_emit|]. done.
Qed.

(** C2, amended.  When the catalog query returns [pre ++ d :: post], no
    entry of [pre] matches the detected name and [d] matches it
    (case-insensitively, one name containing the other), [getTreatmentInfo]
    returns the treatment of [d] verbatim with an empty list of sources;
    the run only logs the catalog query, so the chat-completion service is
    not called. *)
Theorem getTreatmentInfo_first_match disease symptoms w pre d post :
  diseases_list P (diseases w) = Return (pre ++ d :: post) →
  Forall (fun x => matchesDisease P disease x = false) pre →
  matchesDisease P disease d = true →
  ∃ w', getTreatmentInfo P disease symptoms w
        = (Return {| t_treatment := d_treatment d; t_sources := [] |}, w')
        ∧ only_logs w w' [EvQueryDiseases]
        ∧ chat_calls (trace w') = chat_calls (trace w).
Proof.
  intros Hq Hpre Hd.
  pose proof (getTreatmentInfo_cases disease symptoms w) as H. cbv zeta in H.
  rewrite Hq, (find_first _ pre d post Hpre Hd) in H.
  eexists. split; [exact H|]. split; [apply only_logs_emit|].
  simpl. unfold chat_calls. rewrite omap_app. simpl. by rewrite app_nil_r.
Qed.

(** With a single matching entry, or when all matching entries prescribe
    the same treatment, the position of the entry does not matter. *)
Lemma getTreatmentInfo_agreeing_matches disease symptoms w ds d :
  diseases_list P (diseases w) = Return ds →
  d ∈ ds → matchesDisease P disease d = true →
  (∀ d', d' ∈ ds → matchesDisease P disease d' = true → d_treatment d' = d_treatment d) →
  (getTreatmentInfo P disease symptoms w).1
  = Return {| t_treatment := d_treatment d; t_sources := [] |}.
Proof.
  intros Hq Hin Hd Hsame.
  pose proof (getTreatmentInfo_cases disease symptoms w) as H. cbv zeta in H.
  rewrite Hq in H.
  destruct (List.find (matchesDisease P disease) ds) as [d'|] eqn:Hfind.
  - rewrite H. simpl. apply find_some in Hfind as [Hin' Hd'].
    rewrite (Hsame d'); [done| |done]. by apply list_elem_of_In.
  - exfalso. apply list_elem_of_In in Hin.
    pose proof (find_none _ _ Hfind d Hin). congruence.
Qed.

(** In every world [getTreatmentInfo] returns a result, whose list of sources
    is empty, and leaves both tables as they are.  The treatment of the
    result is non-empty as soon as no entry of the catalog has an empty
    treatment.  When its [try] block throws, in particular when the catalog
    query throws or when the chat-completion call made after a failed lookup
    throws, the result is the fixed text with no source. *)
Lemma getTreatmentInfo_outcome disease symptoms w :
  ∃ r w' t,
    getTreatmentInfo P disease symptoms w = (Return r, w')
    ∧ only_logs w w' t
    ∧ t_sources r = []
    ∧ ((∀ ds, diseases_list P (diseases w) = Return ds → treatments_given ds) →
       t_treatment r ≠ "")
    ∧ (∀ e w1, getTreatmentInfo_try P disease symptoms w = (Throw e, w1) →
       r = {| t_treatment := "Unable to fetch treatment information. Please consult with a local agricultural expert or extension office for proper diagnosis and treatment recommendations.";
              t_sources := [] |})
    ∧ (∀ e, diseases_list P (diseases w) = Throw e →
       r = {| t_treatment := unableToFetch; t_sources := [] |})
    ∧ (∀ e ds, diseases_list P (diseases w) = Return ds →
       List.find (matchesDisease P disease) ds = None →
       chat_completion P (TreatmentRequest disease symptoms) = Throw e →
       r = {| t_treatment := unableToFetch; t_sources := [] |}).
Proof.
  pose proof (getTreatmentInfo_cases disease symptoms w) as H. cbv zeta in H.
  unfold getTreatmentInfo_try, runQuery_diseases_list, chat. rewrite bind_run.
  destruct (diseases_list P (diseases w)) as [ds|e].
  - destruct (List.find (matchesDisease P disease) ds) as [d|] eqn:Hfind.
    + do 3 eexists. split; [exact H|]. split; [apply only_logs_emit|].
      split; [done|]. split; [|split; [|split]]; try done;
        [|by intros; simplify_eq].
      intros Hcat. specialize (Hcat ds eq_refl).
      apply find_some in Hfind as [Hin _]. unfold treatments_given in Hcat.
      rewrite Forall_forall in Hcat. apply Hcat. by apply list_elem_of_In.
    + rewrite bind_run.
      destruct (chat_completion P (TreatmentRequest disease symptoms)) as [content|e].
      * do 3 eexists. split; [exact H|].
        split; [eapply only_logs_trans; apply only_logs_emit|].
        split; [done|]. split; [|split; [|split]]; try done.
        intros _. simpl. destruct content as [s|]; [|done].
        destruct (truthy s) eqn:Hs; [by apply truthy_nonempty|done].
      * do 3 eexists. split; [exact H|].
        split; [eapply only_logs_trans; [eapply only_logs_trans|]; apply only_logs_emit|].
        done.
  - do 3 eexists. split; [exact H|].
    split; [eapply only_logs_trans; apply only_logs_emit|]. done.
Qed.

End TreatmentFacts.

(** ** The orchestrator *)

Section OrchestratorFacts.

Import Backend JsString.

Variable P : Platform.

Lemma status_writes_app id t1 t2 :
  status_writes id (t1 ++ t2) = status_writes id t1 ++ status_writes id t2.
Proof. apply omap_app. Qed.

Lemma quiet_refl w : quiet w w.
Proof. exists []. split; [|done]. repeat split. by rewrite app_nil_r. Qed.

Lemma quiet_trans w1 w2 w3 : quiet w1 w2 → quiet w2 w3 → quiet w1 w3.
Proof.
  intros (t1 & H1 & Hs1) (t2 & H2 & Hs2). exists (t1 ++ t2).
  split; [by eapply only_logs_trans|].
  intros id. by rewrite status_writes_app, Hs1, Hs2.
Qed.

Lemma quiet_chat w req : quiet w (emit (EvChatCompletion req) w).
Proof. eexists. split; [apply only_logs_emit|done]. Qed.

Lemma quiet_console w : quiet w (emit EvConsoleError w).
Proof. eexists. split; [apply only_logs_emit|done]. Qed.

Lemma quiet_getTreatmentInfo disease symptoms w r w' :
  getTreatmentInfo P disease symptoms w = (r, w') → quiet w w'.
Proof.
  intros Hrun.
  destruct (getTreatmentInfo_returns P disease symptoms w) as (r0 & w0 & t & Heq & Hl & Hs & _).
  rewrite Hrun in Heq. simplify_eq. by exists t.
Qed.

Lemma analyzeImage_try_throw img id w e w1 :
  analyzeImage_try P img id w = (Throw e, w1) → quiet w w1.
Proof.
  unfold analyzeImage_try, runAction_getTreatmentInfo, updateAnalysis, chat, lift.
  unfold mbind, Action_bind, bind, mret, Action_ret, ret, throw.
  intros H. repeat case_match; simplify_eq.
  all: eauto using quiet_trans, quiet_chat, quiet_getTreatmentInfo.
Qed.

Lemma analyzeImage_try_return img id w r w1 :
  analyzeImage_try P img id w = (Return r, w1) →
  r = id
  ∧ ∃ w2 a u,
      quiet w w2
      ∧ analyses w2 !! id = Some a
      ∧ u_analysisId u = id ∧ u_status u = completed
      ∧ w1 = emit (EvPatchAnalysis id completed)
               {| diseases := diseases w2;
                  analyses := <[id := patch a u]> (analyses w2);
                  trace := trace w2 |}.
Proof.
  unfold analyzeImage_try, runAction_getTreatmentInfo, updateAnalysis, chat, lift.
  unfold mbind, Action_bind, bind, mret, Action_ret, ret, throw.
  intros H. repeat case_match; simplify_eq.
  all: split; [done|]; do 3 eexists; split; [|split; [eassumption|]].
  - eauto using quiet_trans, quiet_chat, quiet_getTreatmentInfo.
  - split; [|split]; last reflexivity; done.
Qed.

Lemma insert_last {A} (l : list A) (x y : A) :
  <[length l := y]> (l ++ [x]) = l ++ [y].
Proof.
  replace (length l) with (length l + 0) by lia.
  by rewrite (insert_app_r l [x] 0 y).
Qed.

Lemma lookup_last {A} (l : list A) (x : A) : (l ++ [x]) !! length l = Some x.
Proof. by rewrite lookup_app_r, Nat.sub_diag. Qed.

Lemma status_writes_other id j st t :
  j ≠ id → (∀ i, status_writes i t = []) →
  status_writes j (EvInsertAnalysis id analyzing :: t ++ [EvPatchAnalysis id st]) = [].
Proof.
  intros Hne Hq. change (EvInsertAnalysis id analyzing :: t ++ [EvPatchAnalysis id st])
    with ([EvInsertAnalysis id analyzing] ++ t ++ [EvPatchAnalysis id st]).
  rewrite !status_writes_app, Hq. simpl.
  destruct (decide (id = j)); [congruence|done].
Qed.

Lemma status_writes_own id st t :
  (∀ i, status_writes i t = []) →
  status_writes id (EvInsertAnalysis id analyzing :: t ++ [EvPatchAnalysis id st])
  = [analyzing; st].
Proof.
  intros Hq. change (EvInsertAnalysis id analyzing :: t ++ [EvPatchAnalysis id st])
    with ([EvInsertAnalysis id analyzing] ++ t ++ [EvPatchAnalysis id st]).
  rewrite !status_writes_app, Hq. simpl.
  destruct (decide (id = id)); [done|congruence].
Qed.

Lemma updateAnalysis_present u w a :
  analyses w !! u_analysisId u = Some a →
  updateAnalysis u w
  = (Return tt,
     emit (EvPatchAnalysis (u_analysisId u) (u_status u))
       {| diseases := diseases w;
          analyses := <[u_analysisId u := patch a u]> (analyses w);
          trace := trace w |}).
Proof. unfold updateAnalysis. by intros ->. Qed.

Lemma analyzeImage_catch_run id e w a :
  analyses w !! id = Some a →
  analyzeImage_catch id e w
  = (Throw e,
     {| diseases := diseases w;
        analyses :=
          <[id := patch a {| u_analysisId := id;
                             u_detectedDisease := "Analysis Failed";
                             u_confidence := 0%Z; u_severity := moderate;
                             u_symptoms := ["Unable to analyze image"];
                             u_treatment := tryAgain; u_sources := [];
                             u_status := failed |}]> (analyses w);
        trace := trace w ++ [EvConsoleError; EvPatchAnalysis id failed] |}).
Proof.
  intros Ha. unfold analyzeImage_catch. rewrite bind_run.
  change (log EvConsoleError w) with (Return tt, emit EvConsoleError w).
  cbv iota beta. rewrite bind_run.
  rewrite (updateAnalysis_present _ _ a) by exact Ha.
  cbv iota beta. unfold throw, emit. cbn [diseases analyses trace u_status u_analysisId].
  by rewrite <- app_assoc.
Qed.

(** One run of [analyzeImage]: it appends one document to the table, and
    either its [try] block returns and the document is completed, or the
    block throws, the document is the failed one and the error is rethrown. *)
Lemma analyzeImage_run img w :
  let id := length (analyses w) in
  ∃ a t,
    diseases (analyzeImage P img w).2 = diseases w
    ∧ analyses (analyzeImage P img w).2 = analyses w ++ [a]
    ∧ userId a = getAuthUserId P
    ∧ trace (analyzeImage P img w).2 = trace w ++ t
    ∧ (∀ j, j ≠ id → status_writes j t = [])
    ∧ (((∃ w1, analyzeImage_try P img id (pending P w) = (Return id, w1))
        ∧ (analyzeImage P img w).1 = Return id
        ∧ status a = completed
        ∧ status_writes id t = [analyzing; completed])
       ∨ (∃ e w1, analyzeImage_try P img id (pending P w) = (Throw e, w1)
            ∧ (analyzeImage P img w).1 = Throw e
            ∧ a = failedDoc (getAuthUserId P)
            ∧ status_writes id t = [analyzing; failed])).
Proof.
  intros id. unfold analyzeImage, try_catch. rewrite bind_run.
  change (createAnalysis (getAuthUserId P) analyzing w)
    with (Return id, pending P w).
  cbv iota beta.
  assert (analyses (pending P w) = analyses w ++ [pendingDoc (getAuthUserId P)])
    as Hpa by reflexivity.
  assert (trace (pending P w) = trace w ++ [EvInsertAnalysis id analyzing])
    as Hpt by reflexivity.
  assert (diseases (pending P w) = diseases w) as Hpd by reflexivity.
  destruct (analyzeImage_try P img id (pending P w)) as [[r|e] w1] eqn:Htry.
  - apply analyzeImage_try_return in Htry as Hret.
    destruct Hret as (-> & w2 & a & u & (t & (Hd & Ha & Ht) & Hq) & Hlook & Hid & Hst & ->).
    rewrite Ha, Hpa in Hlook. unfold id in Hlook at 1.
    rewrite lookup_last in Hlook. injection Hlook as <-.
    exists (patch (pendingDoc (getAuthUserId P)) u),
           (EvInsertAnalysis id analyzing :: t ++ [EvPatchAnalysis id completed]).
    cbn [fst snd emit diseases analyses trace].
    rewrite Hd, Ha, Ht, Hpa, Hpt, Hpd. unfold id at 1. rewrite insert_last.
    split; [done|]. split; [done|]. split; [done|].
    split; [by rewrite <- !app_assoc|].
    split; [intros j Hj; by apply status_writes_other|].
    left. split; [by eexists|]. split; [done|]. split; [done|].
    by apply status_writes_own.
  - apply analyzeImage_try_throw in Htry as Hq.
    destruct Hq as (t & (Hd & Ha & Ht) & Hq).
    rewrite (analyzeImage_catch_run id e w1 (pendingDoc (getAuthUserId P)))
      by (rewrite Ha, Hpa; apply lookup_last).
    exists (failedDoc (getAuthUserId P)),
           (EvInsertAnalysis id analyzing
              :: (t ++ [EvConsoleError]) ++ [EvPatchAnalysis id failed]).
    cbn [fst snd diseases analyses trace].
    rewrite Hd, Ha, Ht, Hpa, Hpt, Hpd. unfold id at 1. rewrite insert_last.
    split; [done|]. split; [done|]. split; [done|].
    split; [by rewrite <- !app_assoc|].
    split; [|right; exists e, w1; split; [done|]; split; [done|]; split; [done|]].
    + intros j Hj. apply status_writes_other; [done|].
      intros i. by rewrite status_writes_app, Hq.
    + apply status_writes_own.
      intros i. by rewrite status_writes_app, Hq.
Qed.

Lemma status_writes_run img w :
  let id := length (analyses w) in
  let w' := (analyzeImage P img w).2 in
  (∀ j, j ≠ id → status_writes j (trace w') = status_writes j (trace w))
  ∧ (status_writes id (trace w') = status_writes id (trace w) ++ [analyzing; completed]
     ∨ status_writes id (trace w') = status_writes id (trace w) ++ [analyzing; failed]).
Proof.
  intros id w'. subst w'.
  destruct (analyzeImage_run img w) as (a & t & _ & _ & _ & Ht & Hother & Hown).
  fold id in Hother, Hown. rewrite Ht. split.
  - intros j Hj. by rewrite status_writes_app, Hother, app_nil_r.
  - rewrite status_writes_app.
    destruct Hown as [(_ & _ & _ & ->)|(e & w1 & _ & _ & _ & ->)]; auto.
Qed.

(** A failing call of the chat-completion service makes the [try] block throw
    its error. *)
Lemma vision_error_throws img id w e :
  chat_completion P (VisionRequest img) = Throw e →
  analyzeImage_try P img id w = (Throw e, emit (EvChatCompletion (VisionRequest img)) w).
Proof.
  intros Hc. unfold analyzeImage_try. rewrite bind_run. unfold chat. by rewrite Hc.
Qed.

(** A response without content, or with an empty content, makes it throw
    "No analysis received from AI". *)
Lemma empty_response_throws img id w content :
  chat_completion P (VisionRequest img) = Return content →
  content = None ∨ content = Some "" →
  analyzeImage_try P img id w
  = (Throw NoAnalysisReceived, emit (EvChatCompletion (VisionRequest img)) w).
Proof.
  intros Hc Hempty. unfold analyzeImage_try. rewrite bind_run. unfold chat.
  rewrite Hc. cbv iota beta. rewrite bind_run. by destruct Hempty as [->| ->].
Qed.

(** C3.  When the [try] block of [analyzeImage], entered after the pending
    document has been created, throws an error [e] (the model call failed,
    the response was empty, a later step threw), the call of [analyzeImage]
    throws the same [e]; the document it created ends as the failed one:
    status "failed", treatment "Please try again with a clearer image of the
    turmeric leaf."; and the writes to its status are "analyzing" then
    "failed". *)
Theorem analyzeImage_failure_is_recorded img w e w1 :
  analyzeImage_try P img (length (analyses w)) (pending P w) = (Throw e, w1) →
  (analyzeImage P img w).1 = Throw e
  ∧ (∃ a, getAnalysis (length (analyses w)) (analyzeImage P img w).2 = Some a
          ∧ status a = failed
          ∧ treatment a = "Please try again with a clearer image of the turmeric leaf."
          ∧ detectedDisease a = "Analysis Failed"
          ∧ sources a = Some [])
  ∧ analyses (analyzeImage P img w).2 = analyses w ++ [failedDoc (getAuthUserId P)]
  ∧ status_writes (length (analyses w)) (trace (analyzeImage P img w).2)
    = status_writes (length (analyses w)) (trace w) ++ [analyzing; failed].
Proof.
  intros Htry.
  destruct (analyzeImage_run img w) as (a & t & _ & Ha & _ & Ht & _ & Hown).
  destruct Hown as [([w2 Hret] & _)|(e' & w1' & Htry' & Hres & -> & Hw)].
  { rewrite Htry in Hret. discriminate. }
  rewrite Htry in Htry'. injection Htry' as <- <-.
  split; [done|]. split; [|split; [done|]].
  - exists (failedDoc (getAuthUserId P)). unfold getAnalysis. rewrite Ha.
    split; [apply lookup_last|done].
  - by rewrite Ht, status_writes_app, Hw.
Qed.

(** The [try] block on an answer that does not parse. *)
Lemma analyzeImage_try_unparseable img id w text a0 :
  chat_completion P (VisionRequest img) = Return (Some text) →
  text ≠ "" →
  JSON_parse P (jsonString text) = None →
  analyses w !! id = Some a0 →
  ∃ r w1,
    getTreatmentInfo P "Analysis Error" ["Unable to parse analysis results"]
      (emit (EvChatCompletion (VisionRequest img)) w) = (Return r, w1)
    ∧ analyzeImage_try P img id w
      = (Return id,
         emit (EvPatchAnalysis id completed)
           {| diseases := diseases w1;
              analyses :=
                <[id := patch a0 {| u_analysisId := id;
                                    u_detectedDisease := "Analysis Error";
                                    u_confidence := 0%Z; u_severity := moderate;
                                    u_symptoms := ["Unable to parse analysis results"];
                                    u_treatment := t_treatment r;
                                    u_sources := t_sources r;
                                    u_status := completed |}]> (analyses w1);
              trace := trace w1 |}).
Proof.
  intros Hc Htext Hparse Ha0.
  destruct (getTreatmentInfo_returns P "Analysis Error"
              ["Unable to parse analysis results"]
              (emit (EvChatCompletion (VisionRequest img)) w))
    as (r & w1 & t & Hinfo & (_ & Han & _) & _).
  exists r, w1. split; [exact Hinfo|].
  unfold analyzeImage_try. rewrite bind_run. unfold chat. rewrite Hc.
  cbv iota beta. rewrite bind_run.
  assert (truthy text = true) as -> by (by destruct text).
  unfold mret at 1, Action_ret at 1, ret at 1. cbv iota beta zeta.
  unfold parseAnalysis. rewrite Hparse.
  unfold fallbackPayload, runAction_getTreatmentInfo.
  repeat (rewrite bind_run; cbn [lift getProp assoc String.eqb Ascii.eqb Bool.eqb
                                 Validator.checked Validator.v_string
                                 Validator.v_array_string Validator.all_strings
                                 Validator.v_number Validator.v_severity]).
  rewrite Hinfo. cbv iota beta.
  repeat (rewrite bind_run; cbn [lift getProp assoc String.eqb Ascii.eqb Bool.eqb
                                 Validator.checked Validator.v_string
                                 Validator.v_array_string Validator.all_strings
                                 Validator.v_number Validator.v_severity]).
  rewrite (updateAnalysis_present _ _ a0) by (cbn [u_analysisId]; by rewrite Han).
  reflexivity.
Qed.

Lemma analyzeImage_unfold img w :
  analyzeImage P img w
  = match analyzeImage_try P img (length (analyses w)) (pending P w) with
    | (Return a, w') => (Return a, w')
    | (Throw e, w') => analyzeImage_catch (length (analyses w)) e w'
    end.
Proof. reflexivity. Qed.

(** C4.  When the model answers with a non-empty text whose JSON span (the
    text from its first open brace to its last close brace, or the whole text
    when there is no such span) does not parse, the analysis result is the
    fixed payload with "Analysis Error", [analyzeImage] returns the id of the
    document it created, and that document carries the payload and the
    status "completed"; the writes to its status are "analyzing" then
    "completed", so it is never "failed". *)
Theorem unparseable_answer_completes img w text :
  chat_completion P (VisionRequest img) = Return (Some text) →
  text ≠ "" →
  JSON_parse P (jsonString text) = None →
  parseAnalysis P text
  = JObj [ ("detectedDisease", JStr "Analysis Error");
           ("confidence", JNum 0%Z);
           ("severity", JStr "moderate");
           ("symptoms", JArr [JStr "Unable to parse analysis results"]);
           ("summary", JStr "Error processing image analysis") ]
  ∧ (analyzeImage P img w).1 = Return (length (analyses w))
  ∧ (∃ a, analyses (analyzeImage P img w).2 = analyses w ++ [a]
          ∧ detectedDisease a = "Analysis Error"
          ∧ confidence a = 0%Z
          ∧ severity a = moderate
          ∧ symptoms a = ["Unable to parse analysis results"]
          ∧ status a = completed)
  ∧ status_writes (length (analyses w)) (trace (analyzeImage P img w).2)
    = status_writes (length (analyses w)) (trace w) ++ [analyzing; completed].
Proof.
  intros Hc Htext Hparse.
  split; [unfold parseAnalysis; by rewrite Hparse|].
  destruct (analyzeImage_try_unparseable img (length (analyses w)) (pending P w)
              text (pendingDoc (getAuthUserId P)) Hc Htext Hparse (lookup_last _ _))
    as (r & w1 & Hinfo & Htry).
  apply quiet_getTreatmentInfo in Hinfo as (t & (_ & Han & _) & _).
  destruct (analyzeImage_run img w) as (a & t' & _ & _ & _ & Ht & _ & Hown).
  destruct Hown as [(_ & _ & _ & Hw)|(e & w2 & Hthrow & _)];
    [|rewrite Htry in Hthrow; discriminate].
  rewrite Ht, status_writes_app, Hw.
  rewrite analyzeImage_unfold, Htry. cbn [fst snd emit analyses].
  rewrite Han. cbn [emit analyses].
  change (analyses (pending P w))
    with (analyses w ++ [pendingDoc (getAuthUserId P)]).
  rewrite insert_last.
  split; [done|]. split; [|done]. eexists. split; [reflexivity|]. done.
Qed.

End OrchestratorFacts.

(** ** The life of an analysis *)

Section LifecycleFacts.

Import Backend.

Lemma seed_keeps_analyses w :
  analyses (Seed.seedDiseases w).2 = analyses w
  ∧ ∀ id, status_writes id (trace (Seed.seedDiseases w).2) = status_writes id (trace w).
Proof.
  unfold Seed.seedDiseases. destruct (Seed.first w); [done|]. cbn [snd].
  rewrite insert_all_analyses, insert_all_trace. split; [done|].
  intros id. rewrite status_writes_app.
  assert (∀ ds, status_writes id (map EvInsertDisease ds) = []) as ->.
  { induction ds; [done|]. done. }
  by rewrite app_nil_r.
Qed.

Lemma settled_empty : settled emptyWorld.
Proof. split; [intros id a Hl; by destruct id|done]. Qed.

Lemma settled_quiet w w' : quiet w w' → settled w → settled w'.
Proof.
  intros (t & (_ & Ha & Ht) & Hq) [Hdocs Hfree]. unfold settled, lived.
  rewrite Ha, Ht. split.
  - intros id a Hl. rewrite status_writes_app, Hq, app_nil_r. by apply Hdocs.
  - intros id Hid. rewrite status_writes_app, Hq, app_nil_r. by apply Hfree.
Qed.

Lemma settled_step w c : settled w → settled (step w c).
Proof.
  intros Hw. destruct c as [|P img|P d s]; cbn [step].
  - destruct (seed_keeps_analyses w) as [Ha Ht]. destruct Hw as [Hdocs Hfree].
    unfold settled, lived. rewrite Ha. split.
    + intros id a Hl. rewrite Ht. by apply Hdocs.
    + intros id Hid. rewrite Ht. by apply Hfree.
  - destruct Hw as [Hdocs Hfree].
    destruct (analyzeImage_run P img w) as (a & t & _ & Ha & _ & Ht & Hother & Hown).
    cbv zeta in Hother, Hown. unfold settled, lived. rewrite Ha, Ht. split.
    + intros id b Hl. rewrite status_writes_app.
      destruct (decide (id = length (analyses w))) as [->|Hne].
      * rewrite lookup_last in Hl. injection Hl as <-.
        rewrite (Hfree (length (analyses w))) by lia. simpl.
        destruct Hown as [(_ & _ & Hst & ->)|(e & w1 & _ & _ & -> & ->)]; auto.
      * rewrite Hother, app_nil_r by done. apply Hdocs.
        apply lookup_lt_Some in Hl as Hlt. rewrite length_app in Hlt. simpl in Hlt.
        rewrite lookup_app_l in Hl by lia. done.
    + intros id Hid. rewrite length_app in Hid. simpl in Hid.
      rewrite status_writes_app, Hother, app_nil_r by lia. apply Hfree. lia.
  - destruct (getTreatmentInfo P d s w) as [r w'] eqn:Hrun.
    eapply settled_quiet; [|done]. eapply quiet_getTreatmentInfo, Hrun.
Qed.

Lemma settled_after cs : settled (after cs).
Proof.
  induction cs as [|c cs IH] using rev_ind; [apply settled_empty|].
  unfold after. rewrite foldl_app. simpl. by apply settled_step.
Qed.

(** C1.  After any sequence of calls of the backend on an empty deployment,
    every document of the [analyses] table has had exactly two writes of its
    status: its creation, with "analyzing", and one transition, to
    "completed" or to "failed", which is the status it has.  So no document
    leaves a terminal status or returns to "analyzing". *)
Theorem analysis_lifecycle (cs : list Call) (id : AnalysisId) (a : Analysis) :
  getAnalysis id (after cs) = Some a →
  (status_writes id (trace (after cs)) = [analyzing; completed] ∧ status a = completed)
  ∨ (status_writes id (trace (after cs)) = [analyzing; failed] ∧ status a = failed).
Proof. intros Hl. by apply (settled_after cs). Qed.

Lemma seed_catalog w :
  treatments_given (diseases w) → treatments_given (diseases (Seed.seedDiseases w).2).
Proof.
  intros Hw. unfold Seed.seedDiseases. destruct (Seed.first w); [done|]. cbn [snd].
  rewrite insert_all_diseases. apply Forall_app. split; [done|].
  repeat constructor; discriminate.
Qed.

(** The catalog of a deployment holds seeded entries only, whose treatments
    are not empty. *)
Lemma catalog_after cs : treatments_given (diseases (after cs)).
Proof.
  induction cs as [|c cs IH] using rev_ind; [constructor|].
  unfold after. rewrite foldl_app. simpl. fold (after cs).
  destruct c as [|P img|P d s]; cbn [step].
  - by apply seed_catalog.
  - destruct (analyzeImage_run P img (after cs)) as (a & t & -> & _). done.
  - destruct (getTreatmentInfo_returns P d s (after cs)) as (r & w' & t & Hrun & (Hd & _) & _).
    rewrite Hrun. cbn [snd]. by rewrite Hd.
Qed.

(** C10.  [getTreatmentInfo] is total over errors.  In every state of a
    deployment (the world after any sequence of backend calls), for every
    disease name and symptom list, it returns a result and does not throw;
    the treatment of the result is a non-empty string and its list of
    sources is empty; both tables are left as they are.  Whenever its [try]
    block throws, in particular when the catalog query throws or when the
    chat-completion call throws, the result is the fixed text 'Unable to
    fetch treatment information. ...' with an empty list of sources.  The
    catalog query, whose source is absent, is assumed to return documents of
    the [diseases] table. *)
Theorem getTreatmentInfo_total (P : Platform) (cs : list Call)
    (disease : string) (symptoms : list string) :
  reads_table P →
  ∃ r w',
    getTreatmentInfo P disease symptoms (after cs) = (Return r, w')
    ∧ t_treatment r ≠ ""
    ∧ t_sources r = []
    ∧ diseases w' = diseases (after cs) ∧ analyses w' = analyses (after cs)
    ∧ (∀ e w1, getTreatmentInfo_try P disease symptoms (after cs) = (Throw e, w1) →
       r = {| t_treatment := "Unable to fetch treatment information. Please consult with a local agricultural expert or extension office for proper diagnosis and treatment recommendations.";
              t_sources := [] |})
    ∧ (∀ e, diseases_list P (diseases (after cs)) = Throw e →
       r = {| t_treatment := unableToFetch; t_sources := [] |})
    ∧ (∀ e ds, diseases_list P (diseases (after cs)) = Return ds →
       List.find (matchesDisease P disease) ds = None →
       chat_completion P (TreatmentRequest disease symptoms) = Throw e →
       r = {| t_treatment := unableToFetch; t_sources := [] |}).
Proof.
  intros Hreads.
  destruct (getTreatmentInfo_outcome P disease symptoms (after cs))
    as (r & w' & t & Hrun & (Hd & Ha & _) & Hsrc & Hne & Htry & Hquery & Hchat).
  exists r, w'. split; [done|]. split; [|done].
  apply Hne. intros ds Hds. unfold treatments_given.
  apply Forall_forall. intros d Hd'.
  pose proof (catalog_after cs) as Hcat. unfold treatments_given in Hcat.
  rewrite Forall_forall in Hcat. apply Hcat. by apply (Hreads _ _ Hds).
Qed.

End LifecycleFacts.

(** ** Runs on concrete inputs *)

Section Runs.

Import Backend Sample.

Lemma seeded_treatments_given : treatments_given Seed.seed_entries.
Proof. repeat constructor; discriminate. Qed.

Lemma seedDiseases_idempotent_witness :
  Seed.seedDiseases Sample.seeded = ("Diseases already seeded", Sample.seeded)
  ∧ diseases Sample.seeded = Seed.seed_entries.
Proof.
  split.
  - apply (proj2 (proj2 (seedDiseases_idempotent emptyWorld))).
  - destruct (proj1 (proj2 (seedDiseases_idempotent emptyWorld)) eq_refl)
      as (w' & Hrun & Hd & _).
    unfold Sample.seeded. rewrite Hrun. exact Hd.
Defined.

Lemma oversized_image_witness :
  Client.handleImageUpload (Some hugePhoto) idle
  = ({| Client.st_status := Client.ERROR; Client.selectedImage := None;
        Client.error := Some "Image size must be less than 10MB" |}, [])
  ∧ Client.handleImageUpload (Some photo) idle
    = ({| Client.st_status := Client.ANALYZING; Client.selectedImage := None;
          Client.error := None |}, [Client.ReadAsDataURL photo]).
Proof.
  split.
  - apply (proj1 (oversized_image_rejected hugePhoto idle)); reflexivity.
  - apply (proj2 (oversized_image_rejected photo idle)).
    + vm_compute. discriminate.
    + reflexivity.
Defined.

(** The whole flow of an accepted upload, for comparison with a rejected one. *)
Example accepted_upload_reads_and_calls :
  Client.upload (Some photo) (Client.Loaded "data:image/jpeg;base64,AAAA") idle
  = ({| Client.st_status := Client.SEARCHING;
        Client.selectedImage := Some "data:image/jpeg;base64,AAAA";
        Client.error := None |},
     [Client.ReadAsDataURL photo; Client.SetTimeout 2000;
      Client.CallAnalyzeImage "data:image/jpeg;base64,AAAA"]).
Proof. reflexivity. Qed.

Lemma getUserAnalyses_anonymous_witness :
  getUserAnalyses anonymous (after busy) = [].
Proof. apply getUserAnalyses_anonymous. reflexivity. Defined.

Lemma getUserAnalyses_recent_ten_witness :
  (length (getUserAnalyses good (after busy)) ≤ 10)%nat
  ∧ StronglySorted newer (getUserAnalyses good (after busy)).
Proof.
  destruct (getUserAnalyses_recent_ten good (after busy) 3 eq_refl)
    as (Hlen & _ & Hsorted & _).
  split; [exact Hlen|exact Hsorted].
Defined.

(** User 3 has twelve analyses in [busy]; the ten newest come back. *)
Example getUserAnalyses_busy :
  map fst (getUserAnalyses good (after busy)) = [14; 13; 12; 11; 9; 8; 7; 6; 4; 3]
  ∧ map fst (by_user 3 (analyses (after busy))) = [0; 2; 3; 4; 6; 7; 8; 9; 11; 12; 13; 14].
Proof. split; vm_compute; reflexivity. Qed.

(** C2 as stated fails.  "Leaf" is contained in the name of "Leaf Blight",
    which is in the seeded catalog, yet the treatment returned is that of
    "Leaf Spot Disease", the first entry that matches. *)
Lemma later_match_is_shadowed :
  ¬ (∀ (P : Platform) (w : World) (disease : string) (symptoms : list string)
       (ds : list Disease) (d : Disease),
       diseases_list P (diseases w) = Return ds →
       d ∈ ds →
       matchesDisease P disease d = true →
       (getTreatmentInfo P disease symptoms w).1
       = Return {| t_treatment := d_treatment d; t_sources := [] |}).
Proof.
  intros Hclaim.
  specialize (Hclaim good seeded "Leaf" [] Seed.seed_entries Seed.leafBlight eq_refl).
  assert (Seed.leafBlight ∈ Seed.seed_entries) as Hin.
  { unfold Seed.seed_entries. do 2 apply list_elem_of_further. apply list_elem_of_here. }
  specialize (Hclaim Hin eq_refl). vm_compute in Hclaim. discriminate.
Qed.

Lemma getTreatmentInfo_first_match_witness :
  ∃ w', getTreatmentInfo good "LEAF BLIGHT on turmeric" [] seeded
        = (Return {| t_treatment := "Apply copper oxychloride or mancozeb fungicide. Remove infected leaves and destroy them. Improve air circulation and reduce leaf wetness duration.";
                     t_sources := [] |}, w')
        ∧ chat_calls (trace w') = [].
Proof.
  destruct (getTreatmentInfo_first_match good "LEAF BLIGHT on turmeric" [] seeded
              [Seed.leafSpot; Seed.rhizomeRot] Seed.leafBlight
              [Seed.bacterialWilt; Seed.healthyPlant])
    as (w' & Hrun & _ & Hcalls).
  - reflexivity.
  - repeat constructor.
  - reflexivity.
  - exists w'. split; [exact Hrun|]. rewrite Hcalls. reflexivity.
Defined.

Lemma getTreatmentInfo_total_witness :
  ∃ r, (getTreatmentInfo prose "Orange rust" ["Orange pustules"] (after [CallSeedDiseases])).1
       = Return r
       ∧ t_treatment r ≠ ""
       ∧ r = {| t_treatment := unableToFetch; t_sources := [] |}.
Proof.
  assert (reads_table prose) as Hreads.
  { intros ds r Hr. injection Hr as <-. done. }
  destruct (getTreatmentInfo_total prose [CallSeedDiseases] "Orange rust"
              ["Orange pustules"] Hreads)
    as (r & w' & Hrun & Hne & _ & _ & _ & _ & _ & Hchat).
  exists r. split; [by rewrite Hrun|]. split; [exact Hne|].
  apply (Hchat (ServiceError "overloaded") Seed.seed_entries); reflexivity.
Defined.

(** The same lookup when the catalog query fails: the fixed text again. *)
Example getTreatmentInfo_without_catalog :
  (getTreatmentInfo noCatalog "Leaf Blight" [] seeded).1
  = Return {| t_treatment := unableToFetch; t_sources := [] |}.
Proof. reflexivity. Qed.

Lemma analyzeImage_failure_witness :
  (analyzeImage failing "img" seeded).1 = Throw (ServiceError "rate limit")
  ∧ analyses (analyzeImage failing "img" seeded).2 = [failedDoc (Some 5)]
  ∧ status_writes 0 (trace (analyzeImage failing "img" seeded).2) = [analyzing; failed].
Proof.
  destruct (analyzeImage_failure_is_recorded failing "img" seeded
              (ServiceError "rate limit") _
              (vision_error_throws failing "img" 0 (pending failing seeded)
                 (ServiceError "rate limit") eq_refl))
    as (Hres & _ & Hdocs & Hwrites).
  split; [exact Hres|]. split; [exact Hdocs|exact Hwrites].
Defined.

(** Failures after the model call end the same way: an answer that is the
    JSON [null] makes the read of [detectedDisease] throw, and an object
    without a valid severity is rejected by the validators of
    [updateAnalysis]. *)
Example downstream_failures :
  let nullAnswer := platform (Some 3) (Return (Some "null")) (Return None) None in
  let badSeverity :=
    platform (Some 3)
      (Return (Some ("{" ++ dq ++ "detectedDisease" ++ dq ++ ": " ++ dq ++ "Leaf Blight" ++ dq ++
                     ", " ++ dq ++ "confidence" ++ dq ++ ": 85, " ++ dq ++ "severity" ++ dq ++ ": " ++
                     dq ++ "severe" ++ dq ++ ", " ++ dq ++ "symptoms" ++ dq ++ ": []}")%string))
      (Return None) None in
  (analyzeImage nullAnswer "img" seeded).1 = Throw TypeError
  ∧ map status (analyses (analyzeImage nullAnswer "img" seeded).2) = [failed]
  ∧ (analyzeImage badSeverity "img" seeded).1 = Throw ArgumentValidationError
  ∧ analyses (analyzeImage badSeverity "img" seeded).2 = [failedDoc (Some 3)].
Proof. vm_compute. done. Qed.

Lemma unparseable_answer_witness :
  (analyzeImage prose "img" seeded).1 = Return 0
  ∧ status_writes 0 (trace (analyzeImage prose "img" seeded).2) = [analyzing; completed].
Proof.
  destruct (unparseable_answer_completes prose "img" seeded proseAnswer)
    as (_ & Hres & _ & Hwrites).
  - reflexivity.
  - discriminate.
  - vm_compute. reflexivity.
  - split; [exact Hres|exact Hwrites].
Defined.

(** A brace span that is not JSON takes the same path. *)
Example unparseable_braces :
  jsonString "Result: {disease: blight}" = "{disease: blight}"
  ∧ (analyzeImage braces "img" seeded).1 = Return 0
  ∧ map (fun a => (detectedDisease a, status a)) (analyses (analyzeImage braces "img" seeded).2)
    = [("Analysis Error", completed)].
Proof. vm_compute. done. Qed.

(** An answer that parses is stored as the model gave it. *)
Example parseable_answer :
  map (fun a => (detectedDisease a, confidence a, severity a, symptoms a, treatment a, status a))
      (analyses (analyzeImage good "img" seeded).2)
  = [("Leaf Blight", 85%Z, moderate, ["Large brown patches"],
      "Apply copper oxychloride or mancozeb fungicide. Remove infected leaves and destroy them. Improve air circulation and reduce leaf wetness duration.",
      completed)].
Proof. vm_compute. reflexivity. Qed.

Lemma analysis_lifecycle_witness :
  ∃ a, getAnalysis 10 (after busy) = Some a
       ∧ status_writes 10 (trace (after busy)) = [analyzing; failed]
       ∧ status a = failed.
Proof.
  exists (failedDoc (Some 5)).
  assert (getAnalysis 10 (after busy) = Some (failedDoc (Some 5))) as Hget
    by (vm_compute; reflexivity).
  split; [exact Hget|].
  destruct (analysis_lifecycle busy 10 (failedDoc (Some 5)) Hget) as [[_ Hst]|[Hw Hst]].
  - discriminate Hst.
  - split; [exact Hw|exact Hst].
Defined.

End Runs.

(** * Further properties of the backend *)

Section AnswerFacts.

Import Backend JsString.

Lemma analyzeImage_try_text P img id w text :
  chat_completion P (VisionRequest img) = Return (Some text) →
  text ≠ "" →
  analyzeImage_try P img id w
  = (let analysisResult := parseAnalysis P text in
     disease ← lift (getProp analysisResult "detectedDisease");
     symptoms ← lift (getProp analysisResult "symptoms");
     treatment ← runAction_getTreatmentInfo P disease symptoms;
     confidence ← lift (getProp analysisResult "confidence");
     severity ← lift (getProp analysisResult "severity");
     d ← lift (Validator.checked (Validator.v_string disease));
     c ← lift (Validator.checked (Validator.v_number confidence));
     sv ← lift (Validator.checked (Validator.v_severity severity));
     sy ← lift (Validator.checked (Validator.v_array_string symptoms));
     updateAnalysis {| u_analysisId := id; u_detectedDisease := d;
                       u_confidence := c; u_severity := sv; u_symptoms := sy;
                       u_treatment := t_treatment treatment;
                       u_sources := t_sources treatment;
                       u_status := completed |};;
     mret id) (emit (EvChatCompletion (VisionRequest img)) w).
Proof.
  intros Hc Htext. unfold analyzeImage_try. rewrite bind_run. unfold chat. rewrite Hc.
  cbv iota beta. rewrite bind_run.
  assert (truthy text = true) as -> by (by destruct text).
  reflexivity.
Qed.

Lemma answer_fields_object v d sy c sv :
  answer_fields v = Some (d, sy, c, sv) →
  ∃ fields, v = JObj fields
    ∧ Validator.v_string (assoc "detectedDisease" fields) = Some d
    ∧ Validator.v_array_string (assoc "symptoms" fields) = Some sy
    ∧ Validator.v_number (assoc "confidence" fields) = Some c
    ∧ Validator.v_severity (assoc "severity" fields) = Some sv.
Proof.
  destruct v as [| | | | |fields]; try discriminate. simpl. intros H. exists fields.
  destruct (Validator.v_string _), (Validator.v_array_string _),
    (Validator.v_number _), (Validator.v_severity _); try discriminate.
  by injection H as -> -> -> ->.
Qed.

(** The [try] block on an answer whose four fields are valid. *)
Lemma analyzeImage_try_valid P img id w text d sy c sv a0 :
  chat_completion P (VisionRequest img) = Return (Some text) →
  text ≠ "" →
  answer_fields (parseAnalysis P text) = Some (d, sy, c, sv) →
  analyses w !! id = Some a0 →
  ∃ r w1 t,
    getTreatmentInfo P d sy (emit (EvChatCompletion (VisionRequest img)) w) = (Return r, w1)
    ∧ only_logs (emit (EvChatCompletion (VisionRequest img)) w) w1 t
    ∧ t_sources r = []
    ∧ analyzeImage_try P img id w
      = (Return id,
         emit (EvPatchAnalysis id completed)
           {| diseases := diseases w1;
              analyses :=
                <[id := patch a0 {| u_analysisId := id; u_detectedDisease := d;
                                    u_confidence := c; u_severity := sv;
                                    u_symptoms := sy;
                                    u_treatment := t_treatment r;
                                    u_sources := t_sources r;
                                    u_status := completed |}]> (analyses w1);
              trace := trace w1 |}).
Proof.
  intros Hc Htext Hfields Ha0.
  apply answer_fields_object in Hfields as (fields & Hv & Hd & Hsy & Hcf & Hsv).
  destruct (getTreatmentInfo_returns P d sy (emit (EvChatCompletion (VisionRequest img)) w))
    as (r & w1 & t & Hinfo & Hlogs & _ & Hsrc).
  exists r, w1, t. split; [exact Hinfo|]. split; [exact Hlogs|]. split; [exact Hsrc|].
  rewrite (analyzeImage_try_text P img id w text Hc Htext). cbv zeta. rewrite Hv.
  unfold runAction_getTreatmentInfo.
  repeat first [ rewrite bind_run | rewrite Hd | rewrite Hsy | rewrite Hcf
               | rewrite Hsv | rewrite Hinfo
               | progress cbn [lift getProp Validator.checked] ].
  destruct Hlogs as (_ & Han & _).
  rewrite (updateAnalysis_present _ _ a0) by (cbn [u_analysisId]; by rewrite Han).
  reflexivity.
Qed.

(** X1.  When the model answers with a non-empty text and the analysis
    result is an object whose disease name, symptom list, confidence and
    severity pass the validators, [analyzeImage] returns the id of the new
    document, and that document holds the four values as the model gave
    them, the treatment found by [getTreatmentInfo] for that name and those
    symptoms, an empty list of sources and the status "completed". *)
Theorem analyzeImage_stores_answer (P : Platform) (img : string) (w : World)
    (text d : string) (sy : list string) (c : number) (sv : Severity) :
  chat_completion P (VisionRequest img) = Return (Some text) →
  text ≠ "" →
  answer_fields (parseAnalysis P text) = Some (d, sy, c, sv) →
  ∃ r w1,
    getTreatmentInfo P d sy (emit (EvChatCompletion (VisionRequest img)) (pending P w))
    = (Return r, w1)
    ∧ (analyzeImage P img w).1 = Return (length (analyses w))
    ∧ analyses (analyzeImage P img w).2
      = analyses w ++ [ {| userId := getAuthUserId P; imageUrl := None;
                           imageStorageId := None;
                           detectedDisease := d; confidence := c; severity := sv;
                           symptoms := sy; treatment := t_treatment r;
                           sources := Some []; status := completed |} ].
Proof.
  intros Hc Htext Hfields.
  destruct (analyzeImage_try_valid P img (length (analyses w)) (pending P w) text
              d sy c sv (pendingDoc (getAuthUserId P)) Hc Htext Hfields (lookup_last _ _))
    as (r & w1 & t & Hinfo & (_ & Han & _) & Hsrc & Htry).
  exists r, w1. split; [exact Hinfo|].
  rewrite analyzeImage_unfold, Htry. cbn [fst snd emit analyses].
  split; [done|]. rewrite Han. cbn [emit analyses].
  change (analyses (pending P w)) with (analyses w ++ [pendingDoc (getAuthUserId P)]).
  rewrite insert_last. unfold patch, pendingDoc. cbn. by rewrite Hsrc.
Qed.

(** What [analyzeImage] does when its [try] block throws. *)
Lemma analyzeImage_throw_outcome P img w e w1 :
  analyzeImage_try P img (length (analyses w)) (pending P w) = (Throw e, w1) →
  (analyzeImage P img w).1 = Throw e
  ∧ diseases (analyzeImage P img w).2 = diseases w
  ∧ analyses (analyzeImage P img w).2 = analyses w ++ [failedDoc (getAuthUserId P)]
  ∧ trace (analyzeImage P img w).2
    = trace w1 ++ [EvConsoleError; EvPatchAnalysis (length (analyses w)) failed].
Proof.
  intros Htry. apply analyzeImage_try_throw in Htry as Hq.
  destruct Hq as (t & (Hd & Ha & Ht) & _).
  rewrite analyzeImage_unfold, Htry.
  rewrite (analyzeImage_catch_run (length (analyses w)) e w1 (pendingDoc (getAuthUserId P)))
    by (rewrite Ha; apply lookup_last).
  cbn [fst snd diseases analyses trace]. rewrite Hd, Ha.
  change (analyses (pending P w)) with (analyses w ++ [pendingDoc (getAuthUserId P)]).
  by rewrite insert_last.
Qed.

(** The [try] block on an analysis result that is not a valid object. *)
Lemma analyzeImage_try_invalid P img id w text :
  chat_completion P (VisionRequest img) = Return (Some text) →
  text ≠ "" →
  answer_fields (parseAnalysis P text) = None →
  ∃ w1, analyzeImage_try P img id w
        = (Throw (match parseAnalysis P text with
                  | JNull => TypeError
                  | _ => ArgumentValidationError
                  end), w1).
Proof.
  intros Hc Htext Hfields.
  rewrite (analyzeImage_try_text P img id w text Hc Htext). cbv zeta.
  unfold runAction_getTreatmentInfo.
  destruct (parseAnalysis P text) as [| | | | |fields]; try (eexists; reflexivity).
  simpl in Hfields.
  destruct (Validator.v_string (assoc "detectedDisease" fields)) as [d|] eqn:Hd;
    [|eexists; repeat first [ rewrite bind_run | rewrite Hd
                            | progress cbn [lift getProp Validator.checked] ];
      reflexivity].
  destruct (Validator.v_array_string (assoc "symptoms" fields)) as [sy|] eqn:Hsy;
    [|eexists; repeat first [ rewrite bind_run | rewrite Hd | rewrite Hsy
                            | progress cbn [lift getProp Validator.checked] ];
      reflexivity].
  destruct (getTreatmentInfo_returns P d sy (emit (EvChatCompletion (VisionRequest img)) w))
    as (r & w1 & t & Hinfo & _).
  destruct (Validator.v_number (assoc "confidence" fields)) as [c|] eqn:Hcf;
    [|eexists; repeat first [ rewrite bind_run | rewrite Hd | rewrite Hsy | rewrite Hcf
                            | rewrite Hinfo
                            | progress cbn [lift getProp Validator.checked] ];
      reflexivity].
  destruct (Validator.v_severity (assoc "severity" fields)) as [sv|] eqn:Hsv;
    [discriminate|].
  eexists. repeat first [ rewrite bind_run | rewrite Hd | rewrite Hsy | rewrite Hcf
                        | rewrite Hsv | rewrite Hinfo
                        | progress cbn [lift getProp Validator.checked] ].
  reflexivity.
Qed.

(** X2.  When the model answers with a non-empty text and the analysis
    result is not an object with a string [detectedDisease], an array of
    strings [symptoms], a number [confidence] and a [severity] among "low",
    "moderate" and "high", [analyzeImage] throws ([TypeError] when the result
    is [null], an argument validation error otherwise) and the document it
    created is the failed one. *)
Theorem analyzeImage_rejects_invalid_answer (P : Platform) (img : string) (w : World)
    (text : string) :
  chat_completion P (VisionRequest img) = Return (Some text) →
  text ≠ "" →
  answer_fields (parseAnalysis P text) = None →
  (analyzeImage P img w).1
  = Throw (match parseAnalysis P text with
           | JNull => TypeError
           | _ => ArgumentValidationError
           end)
  ∧ analyses (analyzeImage P img w).2 = analyses w ++ [failedDoc (getAuthUserId P)].
Proof.
  intros Hc Htext Hfields.
  destruct (analyzeImage_try_invalid P img (length (analyses w)) (pending P w) text
              Hc Htext Hfields) as (w1 & Htry).
  destruct (analyzeImage_throw_outcome P img w _ w1 Htry) as (Hres & _ & Hdocs & _).
  by split.
Qed.

End AnswerFacts.

(** ** The calls of the model *)

Section CallFacts.

Import Backend.

Lemma chat_calls_app t1 t2 : chat_calls (t1 ++ t2) = chat_calls t1 ++ chat_calls t2.
Proof. apply omap_app. Qed.

Lemma calls_trans w1 w2 w3 c1 c2 :
  calls w1 w2 c1 → calls w2 w3 c2 → calls w1 w3 (c1 ++ c2).
Proof.
  intros (t1 & H1 & <-) (t2 & H2 & <-). exists (t1 ++ t2). unfold added in *.
  by rewrite H2, H1, app_assoc, chat_calls_app.
Qed.

Lemma calls_chat w req : calls w (emit (EvChatCompletion req) w) [req].
Proof. by exists [EvChatCompletion req]. Qed.

Lemma calls_patch w w2 cs ds docs id st :
  calls w w2 cs →
  calls w (emit (EvPatchAnalysis id st) {| diseases := ds; analyses := docs; trace := trace w2 |}) cs.
Proof.
  intros (t & Ht & <-). exists (t ++ [EvPatchAnalysis id st]). unfold added in *. simpl.
  by rewrite Ht, app_assoc, chat_calls_app, app_nil_r.
Qed.

Lemma calls_getTreatmentInfo P d s w o w' :
  getTreatmentInfo P d s w = (o, w') →
  calls w w' [] ∨ calls w w' [TreatmentRequest d s].
Proof.
  intros Hrun. pose proof (getTreatmentInfo_cases P d s w) as H. cbv zeta in H.
  destruct (diseases_list P (diseases w)) as [ds|e].
  - destruct (List.find (matchesDisease P d) ds) as [m|].
    + rewrite H in Hrun. injection Hrun as <- <-. left. by exists [EvQueryDiseases].
    + destruct (chat_completion P (TreatmentRequest d s));
        rewrite H in Hrun; injection Hrun as <- <-; right.
      * exists [EvQueryDiseases; EvChatCompletion (TreatmentRequest d s)].
        split; [|done]. unfold added. simpl. by rewrite <- !app_assoc.
      * exists [EvQueryDiseases; EvChatCompletion (TreatmentRequest d s); EvConsoleError].
        split; [|done]. unfold added. simpl. by rewrite <- !app_assoc.
  - rewrite H in Hrun. injection Hrun as <- <-. left.
    exists [EvQueryDiseases; EvConsoleError].
    split; [|done]. unfold added. simpl. by rewrite <- !app_assoc.
Qed.

Lemma calls_analyzeImage_try P img id w o w1 :
  analyzeImage_try P img id w = (o, w1) →
  calls w w1 [VisionRequest img]
  ∨ ∃ d s, calls w w1 [VisionRequest img; TreatmentRequest d s].
Proof.
  unfold analyzeImage_try, runAction_getTreatmentInfo, updateAnalysis, chat, lift.
  unfold mbind, Action_bind, bind, mret, Action_ret, ret, throw.
  intros H. repeat case_match; simplify_eq.
  all: try (left; apply calls_chat).
  all: match goal with
       | Hg : getTreatmentInfo _ ?d ?s _ = _ |- _ =>
           destruct (calls_getTreatmentInfo _ _ _ _ _ _ Hg) as [Hc|Hc];
           [left|right; exists d, s]
       end.
  all: first [ exact (calls_trans _ _ _ _ _ (calls_chat _ _) Hc)
             | apply calls_patch; exact (calls_trans _ _ _ _ _ (calls_chat _ _) Hc) ].
Qed.

(** X3.  One run of [analyzeImage] calls the chat-completion service once
    with the image and then at most once more, for treatment advice: it
    never repeats a call. *)
Theorem analyzeImage_model_calls (P : Platform) (img : string) (w : World) :
  ∃ t, trace (analyzeImage P img w).2 = trace w ++ t
       ∧ (chat_calls t = [VisionRequest img]
          ∨ ∃ d s, chat_calls t = [VisionRequest img; TreatmentRequest d s]).
Proof.
  assert (calls w (pending P w) []) as Hpending.
  { by exists [EvInsertAnalysis (length (analyses w)) analyzing]. }
  destruct (analyzeImage_try P img (length (analyses w)) (pending P w)) as [o w1] eqn:Htry.
  assert (∀ cs, calls (pending P w) w1 cs → calls w (analyzeImage P img w).2 cs) as Hend.
  { intros cs Hcs. pose proof (calls_trans _ _ _ _ _ Hpending Hcs) as (t & Ht & Hc).
    simpl in Hc. destruct o as [a|e].
    - rewrite analyzeImage_unfold, Htry. by exists t.
    - destruct (analyzeImage_throw_outcome P img w e w1 Htry) as (_ & _ & _ & Htr).
      exists (t ++ [EvConsoleError; EvPatchAnalysis (length (analyses w)) failed]).
      unfold added in *. by rewrite Htr, Ht, app_assoc, chat_calls_app, Hc, app_nil_r. }
  destruct (calls_analyzeImage_try P img _ _ _ _ Htry) as [Hc|(d & s & Hc)];
    apply Hend in Hc as (t & Ht & Hc); exists t; split; eauto.
Qed.

End CallFacts.

(** ** What a run leaves in the table *)

Section DocumentFacts.

Import Backend.

Lemma getTreatmentInfo_sources P d s w r w' :
  getTreatmentInfo P d s w = (Return r, w') → t_sources r = [].
Proof.
  intros Hrun.
  destruct (getTreatmentInfo_returns P d s w) as (r0 & w0 & t & Heq & _ & _ & Hsrc).
  rewrite Hrun in Heq. by simplify_eq.
Qed.

Lemma analyzeImage_try_return_doc P img id w r w1 :
  analyzeImage_try P img id w = (Return r, w1) →
  ∃ w2 a u,
    quiet w w2
    ∧ analyses w2 !! id = Some a
    ∧ u_sources u = []
    ∧ u_status u = completed
    ∧ w1 = emit (EvPatchAnalysis id completed)
             {| diseases := diseases w2;
                analyses := <[id := patch a u]> (analyses w2);
                trace := trace w2 |}.
Proof.
  unfold analyzeImage_try, runAction_getTreatmentInfo, updateAnalysis, chat, lift.
  unfold mbind, Action_bind, bind, mret, Action_ret, ret, throw.
  intros H. repeat case_match; simplify_eq.
  do 3 eexists. split; [|split; [eassumption|]].
  - eauto using quiet_trans, quiet_chat, quiet_getTreatmentInfo.
  - split; [|split]; last reflexivity; [|done].
    cbn [u_sources]. eapply getTreatmentInfo_sources. eassumption.
Qed.

(** X4.  One run of [analyzeImage] leaves the catalog and every existing
    document as they are and appends exactly one document, at the id it
    returns on success.  That document is owned by the authenticated user
    (by nobody when no user is signed in); its image fields stay unset, so
    the image is not kept; and its list of sources is empty. *)
Theorem analyzeImage_appends_one (P : Platform) (img : string) (w : World) :
  diseases (analyzeImage P img w).2 = diseases w
  ∧ ∃ a, analyses (analyzeImage P img w).2 = analyses w ++ [a]
         ∧ userId a = getAuthUserId P
         ∧ imageUrl a = None ∧ imageStorageId a = None
         ∧ sources a = Some []
         ∧ (∀ j b, analyses w !! j = Some b → analyses (analyzeImage P img w).2 !! j = Some b).
Proof.
  assert (∀ a, analyses (analyzeImage P img w).2 = analyses w ++ [a] →
               ∀ j b, analyses w !! j = Some b →
                      analyses (analyzeImage P img w).2 !! j = Some b) as Hkeep.
  { intros a -> j b Hj. rewrite lookup_app_l; [done|]. by eapply lookup_lt_Some. }
  destruct (analyzeImage_try P img (length (analyses w)) (pending P w)) as [[r|e] w1] eqn:Htry.
  - apply analyzeImage_try_return_doc in Htry as Hdoc.
    destruct Hdoc as (w2 & a & u & (t & (Hd & Ha & _) & _) & Hlook & Hsrc & _ & ->).
    rewrite Ha in Hlook.
    change (analyses (pending P w)) with (analyses w ++ [pendingDoc (getAuthUserId P)]) in *.
    rewrite lookup_last in Hlook. injection Hlook as <-.
    assert (analyses (analyzeImage P img w).2
            = analyses w ++ [patch (pendingDoc (getAuthUserId P)) u]) as Hdocs.
    { rewrite analyzeImage_unfold, Htry. cbn [snd emit analyses].
      by rewrite Ha, insert_last. }
    split.
    + rewrite analyzeImage_unfold, Htry. cbn [snd emit diseases]. by rewrite Hd.
    + eexists. split; [exact Hdocs|]. cbn. rewrite Hsrc. eauto 10.
  - destruct (analyzeImage_throw_outcome P img w e w1 Htry) as (_ & Hd & Hdocs & _).
    split; [done|]. eexists. split; [exact Hdocs|]. cbn. eauto 10.
Qed.

(** X5.  When [analyzeImage] returns an id, no document had that id before
    the call, and the document that has it after the call is completed: the
    caller never receives the id of a pending or failed analysis. *)
Theorem analyzeImage_returned_id_is_completed (P : Platform) (img : string)
    (w : World) (id : AnalysisId) :
  (analyzeImage P img w).1 = Return id →
  getAnalysis id w = None
  ∧ ∃ a, getAnalysis id (analyzeImage P img w).2 = Some a ∧ status a = completed.
Proof.
  intros Hres.
  destruct (analyzeImage_run P img w) as (a & t & _ & Ha & _ & _ & _ & Hown).
  destruct Hown as [(_ & Hret & Hst & _)|(e & w1 & _ & Hthrow & _)];
    [|rewrite Hres in Hthrow; discriminate].
  rewrite Hres in Hret. injection Hret as ->. unfold getAnalysis. split.
  - apply lookup_ge_None. lia.
  - exists a. rewrite Ha. split; [apply lookup_last|done].
Qed.

End DocumentFacts.

(** ** The lookup of a treatment *)

Section LookupFacts.

Import Backend JsString.

Local Open Scope string_scope.

Lemma append_cons a p q : String a p ++ q = String a (p ++ q).
Proof. reflexivity. Qed.

Lemma startsWith_spec p s : startsWith p s = true ↔ ∃ post, s = p ++ post.
Proof.
  revert s. induction p as [|a p IH]; intros s; simpl.
  - split; [by exists s|done].
  - destruct s as [|b s].
    + split; [done|]. by intros [post Heq].
    + destruct (Ascii.eqb_spec a b) as [->|Hne].
      * rewrite IH. split; intros [post Heq]; exists post;
          rewrite append_cons in *; congruence.
      * split; [done|]. intros [post Heq]. rewrite append_cons in Heq. congruence.
Qed.

Lemma includes_spec s p : includes s p = true ↔ ∃ pre post, s = pre ++ p ++ post.
Proof.
  induction s as [|c s IH]; simpl.
  - destruct (startsWith p "") eqn:Hst.
    + split; [|done]. intros _. apply startsWith_spec in Hst as [post ->]. by exists "", post.
    + split; [done|]. intros (pre & post & Heq). destruct pre; [|done]. simpl in Heq.
      assert (startsWith p "" = true) by (apply startsWith_spec; eauto). congruence.
  - destruct (startsWith p (String c s)) eqn:Hst.
    + split; [|done]. intros _. apply startsWith_spec in Hst as [post ->]. by exists "", post.
    + rewrite IH. split.
      * intros (pre & post & ->). by exists (String c pre), post.
      * intros (pre & post & Heq). destruct pre as [|a pre]; simpl in Heq.
        -- assert (startsWith p (String c s) = true) by (apply startsWith_spec; eauto).
           congruence.
        -- injection Heq as <- ->. by exists pre, post.
Qed.

(** X6.  The predicate of the catalog lookup holds exactly when, once both
    are put in lower case by [toLowerCase], the name of the entry contains
    the detected name as a contiguous substring or the detected name
    contains the name of the entry.  So a detected name with the lower case
    of the name of an entry matches that entry, and the predicate only
    depends on the lower case of the detected name. *)
Theorem matchesDisease_spec (P : Platform) (disease : string) (d : Disease) :
  (matchesDisease P disease d = true
   ↔ (∃ pre post, toLowerCase (lowerUnicode P) (name d)
                  = pre ++ toLowerCase (lowerUnicode P) disease ++ post)
     ∨ (∃ pre post, toLowerCase (lowerUnicode P) disease
                    = pre ++ toLowerCase (lowerUnicode P) (name d) ++ post))
  ∧ (toLowerCase (lowerUnicode P) disease = toLowerCase (lowerUnicode P) (name d) →
     matchesDisease P disease d = true)
  ∧ (∀ other, toLowerCase (lowerUnicode P) other = toLowerCase (lowerUnicode P) disease →
     matchesDisease P other d = matchesDisease P disease d).
Proof.
  assert (matchesDisease P disease d = true
          ↔ (∃ pre post, toLowerCase (lowerUnicode P) (name d)
                         = pre ++ toLowerCase (lowerUnicode P) disease ++ post)
            ∨ (∃ pre post, toLowerCase (lowerUnicode P) disease
                           = pre ++ toLowerCase (lowerUnicode P) (name d) ++ post)) as Hspec.
  { unfold matchesDisease. rewrite orb_true_iff, !includes_spec. done. }
  split; [exact Hspec|]. split.
  - intros Heq. apply Hspec. left. exists "", "". rewrite Heq.
    assert (∀ s : string, s ++ "" = s) as Hnil.
    { induction s as [|c r IH]; [done|]. rewrite append_cons. by f_equal. }
    by rewrite Hnil.
  - intros other Heq. unfold matchesDisease. by rewrite Heq.
Qed.

End LookupFacts.

Section AdviceFacts.

Import Backend JsString.

Lemma find_none_Forall {A} (f : A → bool) l :
  Forall (fun x => f x = false) l → List.find f l = None.
Proof. induction 1 as [|x l Hx _ IH]; simpl; [done|]. by rewrite Hx. Qed.

(** X7.  When the catalog query succeeds and no entry matches the detected
    name, [getTreatmentInfo] asks the model once, with that name and those
    symptoms; a non-empty content of the response is returned verbatim,
    and a missing or empty content is replaced by the fixed advice to
    consult an extension office. *)
Theorem getTreatmentInfo_asks_model (P : Platform) (disease : string)
    (symptoms : list string) (w : World) (ds : list Disease) (content : option string) :
  diseases_list P (diseases w) = Return ds →
  Forall (fun d => matchesDisease P disease d = false) ds →
  chat_completion P (TreatmentRequest disease symptoms) = Return content →
  ∃ r w',
    getTreatmentInfo P disease symptoms w = (Return r, w')
    ∧ chat_calls (trace w') = chat_calls (trace w) ++ [TreatmentRequest disease symptoms]
    ∧ t_sources r = []
    ∧ (∀ s, content = Some s → s ≠ ""%string → t_treatment r = s)
    ∧ (content = None ∨ content = Some ""%string →
       t_treatment r = "Consult with a local agricultural extension office for specific treatment recommendations."%string).
Proof.
  intros Hq Hnone Hc.
  pose proof (getTreatmentInfo_cases P disease symptoms w) as H. cbv zeta in H.
  rewrite Hq, (find_none_Forall _ _ Hnone), Hc in H.
  do 2 eexists. split; [exact H|]. simpl. split; [|split; [done|split]].
  - unfold chat_calls. rewrite !omap_app. simpl. by rewrite app_nil_r.
  - intros s -> Hs. by destruct s.
  - by intros [->| ->].
Qed.

(** X8.  An empty detected name is contained in every name: with a
    non-empty catalog, [getTreatmentInfo] then returns the treatment of the
    first entry, whatever the symptoms, and does not ask the model. *)
Theorem getTreatmentInfo_empty_name (P : Platform) (symptoms : list string)
    (w : World) (d : Disease) (rest : list Disease) :
  diseases_list P (diseases w) = Return (d :: rest) →
  getTreatmentInfo P "" symptoms w
  = (Return {| t_treatment := d_treatment d; t_sources := [] |}, emit EvQueryDiseases w).
Proof.
  intros Hq.
  pose proof (getTreatmentInfo_cases P "" symptoms w) as H. cbv zeta in H.
  rewrite Hq in H. simpl in H.
  assert (matchesDisease P "" d = true) as Hm.
  { unfold matchesDisease.
    change (toLowerCase (lowerUnicode P) "") with ""%string.
    by destruct (toLowerCase (lowerUnicode P) (name d)). }
  by rewrite Hm in H.
Qed.

Lemma find_ext {A} (f g : A → bool) l :
  (∀ x, f x = g x) → List.find f l = List.find g l.
Proof. intros Hfg. induction l as [|x l IH]; simpl; [done|]. by rewrite Hfg, IH. Qed.

(** X9.  The five names that the prompt offers to the model are the names of
    the five seeded entries, and on the seeded catalog each of them, in any
    letter case, is resolved to the treatment of its own entry, without a
    call of the model. *)
Theorem prompt_names_resolve (P : Platform) (w : World) (x : string)
    (symptoms : list string) (d : Disease) :
  diseases_list P (diseases w) = Return Seed.seed_entries →
  d ∈ Seed.seed_entries →
  toLowerCase (lowerUnicode P) x = toLowerCase (lowerUnicode P) (name d) →
  promptDiseases = map name Seed.seed_entries
  ∧ getTreatmentInfo P x symptoms w
    = (Return {| t_treatment := d_treatment d; t_sources := [] |}, emit EvQueryDiseases w).
Proof.
  intros Hq Hin Hx. split; [reflexivity|].
  pose proof (getTreatmentInfo_cases P x symptoms w) as H. cbv zeta in H.
  rewrite Hq in H.
  rewrite (find_ext (matchesDisease P x) (matchesDisease P (name d))) in H
    by (intros e; unfold matchesDisease; by rewrite Hx).
  assert (List.find (matchesDisease P (name d)) Seed.seed_entries = Some d) as Hfind.
  { unfold Seed.seed_entries in Hin.
    repeat (apply elem_of_cons in Hin as [->|Hin]; [vm_compute; reflexivity|]).
    by apply elem_of_nil in Hin. }
  by rewrite Hfind in H.
Qed.

End AdviceFacts.

(** ** The two internal mutations *)

Section MutationFacts.

Import Backend.

(** X10.  [updateAnalysis] on an id without a document throws and changes
    nothing.  On an existing document it replaces the seven fields of its
    arguments and keeps the owner and the image fields; it leaves the
    catalog, the number of documents and every other document as they are. *)
Theorem updateAnalysis_patches_one (u : UpdateArgs) (w : World) :
  (getAnalysis (u_analysisId u) w = None →
     updateAnalysis u w = (Throw DocumentNotFound, w))
  ∧ (∀ a, getAnalysis (u_analysisId u) w = Some a →
       ∃ w', updateAnalysis u w = (Return tt, w')
             ∧ diseases w' = diseases w
             ∧ length (analyses w') = length (analyses w)
             ∧ getAnalysis (u_analysisId u) w'
               = Some {| userId := userId a; imageUrl := imageUrl a;
                         imageStorageId := imageStorageId a;
                         detectedDisease := u_detectedDisease u;
                         confidence := u_confidence u; severity := u_severity u;
                         symptoms := u_symptoms u; treatment := u_treatment u;
                         sources := Some (u_sources u); status := u_status u |}
             ∧ (∀ j, j ≠ u_analysisId u → getAnalysis j w' = getAnalysis j w)).
Proof.
  unfold getAnalysis. split.
  - intros Hnone. unfold updateAnalysis. by rewrite Hnone.
  - intros a Ha. rewrite (updateAnalysis_present u w a Ha). eexists. split; [reflexivity|].
    cbn [emit diseases analyses]. split; [done|]. split; [apply length_insert|]. split.
    + apply list_lookup_insert_eq. by eapply lookup_lt_Some.
    + intros j Hj. by apply list_lookup_insert_ne.
Qed.

(** X11.  [createAnalysis] returns an id that had no document, and puts
    there a document with the given owner and status, an empty disease name,
    confidence 0, severity "moderate", no symptom, an empty treatment and no
    sources; every other id reads as before. *)
Theorem createAnalysis_then_get (user : option UserId) (st : Status) (w : World) :
  ∃ id w', createAnalysis user st w = (Return id, w')
           ∧ getAnalysis id w = None
           ∧ getAnalysis id w'
             = Some {| userId := user; imageUrl := None; imageStorageId := None;
                       detectedDisease := ""; confidence := 0%Z; severity := moderate;
                       symptoms := []; treatment := ""; sources := None;
                       status := st |}
           ∧ (∀ j, j ≠ id → getAnalysis j w' = getAnalysis j w)
           ∧ diseases w' = diseases w.
Proof.
  do 2 eexists. split; [reflexivity|]. unfold getAnalysis. cbn [emit analyses diseases].
  split; [apply lookup_ge_None; lia|]. split; [apply lookup_last|]. split; [|done].
  intros j Hj. destruct (decide (j < length (analyses w))) as [Hlt|Hge].
  - by rewrite lookup_app_l.
  - rewrite !lookup_ge_None_2; [done|lia|]. rewrite length_app. simpl. lia.
Qed.

End MutationFacts.

(** ** The history after an analysis *)

Section HistoryFacts.

Import Backend.

Lemma by_user_snoc u docs a :
  by_user u (docs ++ [a])
  = by_user u docs ++ (if decide (userId a = Some u) then [(length docs, a)] else []).
Proof.
  unfold by_user. rewrite imap_app, filter_app. f_equal. simpl.
  rewrite filter_cons, filter_nil. simpl. rewrite Nat.add_0_r.
  by destruct (decide (userId a = Some u)).
Qed.

(** X12.  After a run of [analyzeImage] for a signed-in user, the history of
    that user starts with the analysis that the run created, whether it
    completed or failed. *)
Theorem new_analysis_heads_history (P : Platform) (img : string) (w : World) (u : UserId) :
  getAuthUserId P = Some u →
  ∃ a, getAnalysis (length (analyses w)) (analyzeImage P img w).2 = Some a
       ∧ head (getUserAnalyses P (analyzeImage P img w).2) = Some (length (analyses w), a).
Proof.
  intros Hu.
  destruct (analyzeImage_run P img w) as (a & t & _ & Ha & Hown & _).
  exists a. unfold getAnalysis, getUserAnalyses. rewrite Hu, Ha. split; [apply lookup_last|].
  rewrite by_user_snoc. rewrite Hown, Hu.
  destruct (decide (Some u = Some u)); [|done].
  by rewrite reverse_app.
Qed.

(** X13.  An analysis made while nobody is signed in is owned by nobody: it
    is in the history of no user. *)
Theorem anonymous_analysis_in_no_history (P Q : Platform) (img : string) (w : World) :
  getAuthUserId P = None →
  ∀ a, (length (analyses w), a) ∉ getUserAnalyses Q (analyzeImage P img w).2.
Proof.
  intros Hanon a Hin.
  destruct (analyzeImage_run P img w) as (b & t & _ & Hb & Hown & _).
  unfold getUserAnalyses in Hin. destruct (getAuthUserId Q) as [u|]; [|by apply elem_of_nil in Hin].
  apply elem_of_take in Hin as (i & Hi & _).
  apply list_elem_of_lookup_2, elem_of_reverse, elem_of_by_user in Hi as [Hlook Hu].
  rewrite Hb, lookup_last in Hlook. injection Hlook as <-. congruence.
Qed.

End HistoryFacts.

(** ** The text that is parsed *)

Section ExtractionFacts.

Import Backend Regex.

Local Open Scope string_scope.

(** X14.  Prose around a brace span is dropped before parsing: when the text
    before the span has no open brace and the text after it has no close
    brace, the analysis result of the wrapped text is that of the span
    alone.  A text without a span (no open brace, or no close brace after
    the first open brace) is parsed whole. *)
Theorem prose_around_object_is_dropped (P : Platform) (pre body post : string) :
  lacks open_brace pre → lacks close_brace post →
  jsonString (pre ++ String open_brace (body ++ String close_brace post))
  = String open_brace (body ++ String close_brace "")
  ∧ parseAnalysis P (pre ++ String open_brace (body ++ String close_brace post))
    = parseAnalysis P (String open_brace (body ++ String close_brace ""))
  ∧ (∀ text, lacks open_brace text → jsonString text = text).
Proof.
  intros Hpre Hpost.
  assert (∀ pre' post', lacks open_brace pre' → lacks close_brace post' →
            jsonString (pre' ++ String open_brace (body ++ String close_brace post'))
            = String open_brace (body ++ String close_brace "")) as Hspan.
  { intros pre' post' Hpre' Hpost'. unfold jsonString.
    assert (match_braces (pre' ++ String open_brace (body ++ String close_brace post'))
            = Some (String open_brace (body ++ String close_brace ""))) as ->; [|done].
    apply match_braces_spec. by exists pre', body, post'. }
  split; [by apply Hspan|]. split.
  - unfold parseAnalysis. rewrite (Hspan pre post Hpre Hpost).
    pose proof (Hspan "" "" I I) as Hbare.
    change (jsonString (String open_brace (body ++ String close_brace ""))
            = String open_brace (body ++ String close_brace "")) in Hbare.
    by rewrite Hbare.
  - intros text Htext. unfold jsonString.
    destruct (match_braces text) as [m|] eqn:Hm; [|done].
    apply match_braces_spec in Hm as (pre' & body' & post' & -> & _).
    exfalso. clear -Htext. induction pre' as [|c pre' IH]; simpl in Htext.
    + by destruct Htext.
    + destruct Htext as [_ Htext]. auto.
Qed.

End ExtractionFacts.

(** ** The flow of an upload *)

Section UploadFacts.

Import Client JsString.

(** X15.  An upload calls the analysis backend exactly when the file has an
    image type, is at most 10 MB and its read succeeds; the call is then made
    once, with the data URL of the read, after the read and the timer.  When
    the read of an accepted file fails, the status is ERROR with 'Failed to
    read image file' and the backend is not called. *)
Theorem backend_called_only_after_read (f : File) (rd : ReadOutcome) (st : AppState) :
  (∀ b, CallAnalyzeImage b ∈ (upload (Some f) rd st).2
        ↔ startsWith "image/" (f_type f) = true
          ∧ (f_size f ≤ 10 * 1024 * 1024)%N
          ∧ rd = Loaded b)
  ∧ (∀ b, startsWith "image/" (f_type f) = true → (f_size f ≤ 10 * 1024 * 1024)%N →
          rd = Loaded b →
          upload (Some f) rd st
          = ({| st_status := SEARCHING; selectedImage := Some b; error := None |},
             [ReadAsDataURL f; SetTimeout 2000; CallAnalyzeImage b]))
  ∧ (startsWith "image/" (f_type f) = true → (f_size f ≤ 10 * 1024 * 1024)%N →
     rd = ReadError →
     upload (Some f) rd st
     = ({| st_status := ERROR; selectedImage := selectedImage st;
           error := Some "Failed to read image file" |}, [ReadAsDataURL f])).
Proof.
  unfold upload, handleImageUpload.
  destruct (startsWith "image/" (f_type f)) eqn:Hty; simpl.
  - destruct (N.ltb_spec sizeLimit (f_size f)) as [Hbig|Hok]; simpl.
    + unfold sizeLimit in Hbig. split; [|split]; try (intros; lia).
      intros b. rewrite elem_of_nil. split; [done|]. intros (_ & Hsz & _). lia.
    + destruct rd as [u|]; simpl.
      * split; [|split]; [| |done].
        -- intros b. rewrite !elem_of_cons, elem_of_nil. split.
           ++ intros [?|[?|[[= ->]|[]]]]; try discriminate. done.
           ++ intros (_ & _ & [= ->]). auto.
        -- intros b _ _ [= ->]. done.
      * split; [|split]; [|done|done].
        intros b. rewrite elem_of_cons, elem_of_nil. split.
        -- intros [?|[]]. discriminate.
        -- intros (_ & _ & ?). discriminate.
  - split; [|split]; try done.
    intros b. rewrite elem_of_nil. split; [done|]. by intros (? & _).
Qed.

End UploadFacts.

(** ** The view after an upload *)

Section ViewFacts.

Import View JsString.

Lemma backend_event_keeps_image st e :
  v_selectedImage (onBackendEvent st e) = v_selectedImage st.
Proof.
  destruct e as [captured id| |doc]; simpl.
  - unfold analysisResolved. by destruct (negb (is_completed captured)).
  - done.
  - unfold effectFailed, effectCompleted. destruct doc as [doc|]; [|done].
    repeat case_match; done.
Qed.

Lemma backend_events_keep_image st es :
  v_selectedImage (foldl onBackendEvent st es) = v_selectedImage st.
Proof.
  revert st. induction es as [|e es IH]; intros st; simpl; [done|].
  by rewrite IH, backend_event_keeps_image.
Qed.

(** X16.  After a successful read with a non-empty data URL, whatever the
    backend does before the 2 second timer fires (its call resolves or
    rejects, the query delivers documents, in any number and order), the
    timer leaves the status COMPLETED and the screen is the result display
    with the image and the fixed result "Leaf Spot Disease", confidence 85. *)
Theorem forced_mock_is_displayed (base64 : string) (st : State) (es : list BackendEvent) :
  truthy base64 = true →
  let st' := forcedMockCallback (foldl onBackendEvent (onload base64 st).1 es) in
  v_status st' = Client.COMPLETED
  ∧ renderCurrentState st' = ResultDisplay base64 forcedMock
  ∧ r_detectedDisease forcedMock = "Leaf Spot Disease"%string
  ∧ r_confidence forcedMock = 85%Z
  ∧ queryArg st' = None.
Proof.
  intros Hb st'. subst st'. split; [done|].
  unfold renderCurrentState, forcedMockCallback. cbn [v_status v_analysisResult v_selectedImage].
  rewrite backend_events_keep_image. cbn. rewrite Hb. done.
Qed.

(** X17.  Once the status is COMPLETED, the resolution of the backend call
    (made from a render whose status was not COMPLETED) replaces the result
    by the placeholder of the returned id, with an empty disease name and
    confidence 0; the query is then made for that id, but a document it
    delivers that is not failed changes nothing.  The screen stays the
    result display with the placeholder. *)
Theorem late_answer_shows_placeholder (st : State) (captured : Client.AppStatus)
    (analysisId image : string) (doc : Result) :
  v_status st = Client.COMPLETED →
  captured ≠ Client.COMPLETED →
  v_selectedImage st = Some image → truthy image = true →
  isMockId analysisId = false →
  r_status doc ≠ failed →
  let st1 := analysisResolved captured analysisId st in
  queryArg st1 = Some analysisId
  ∧ onBackendEvent st1 (QueryDelivers (Some doc)) = st1
  ∧ renderCurrentState st1 = ResultDisplay image (placeholder analysisId)
  ∧ r_detectedDisease (placeholder analysisId) = ""%string
  ∧ r_confidence (placeholder analysisId) = 0%Z.
Proof.
  intros Hst Hcap Himg Htruthy Hid Hdoc st1. subst st1.
  unfold analysisResolved.
  assert (negb (is_completed captured) = true) as -> by (by destruct captured).
  split; [|split; [|split]].
  - unfold queryArg. cbn. by rewrite Hid.
  - cbn [onBackendEvent]. unfold effectCompleted. cbn [v_status]. rewrite Hst.
    cbn [is_completed negb]. rewrite andb_false_r.
    unfold effectFailed. by rewrite bool_decide_eq_false_2.
  - unfold renderCurrentState. cbn. by rewrite Hst, Himg, Htruthy.
  - done.
Qed.

(** X18.  A reset clears the image, and nothing that the backend does
    afterwards brings it back.  The 2 second timer is not cleared by a
    reset: when it fires afterwards, and more generally whenever the status
    becomes COMPLETED again after the reset, the screen is the welcome
    screen with its picker disabled, which has no button to reset. *)
Theorem timer_after_reset_disables_picker (st : State) (es : list BackendEvent) :
  let st' := foldl onBackendEvent (resetAnalysis st) es in
  v_selectedImage st' = None
  ∧ renderCurrentState (forcedMockCallback st') = IdleState true
  ∧ (v_status st' = Client.COMPLETED → renderCurrentState st' = IdleState true).
Proof.
  intros st'. subst st'.
  pose proof (backend_events_keep_image (resetAnalysis st) es) as Himg.
  cbn [resetAnalysis v_selectedImage] in Himg. split; [exact Himg|]. split.
  - unfold renderCurrentState, forcedMockCallback.
    cbn [v_status v_analysisResult v_selectedImage]. by rewrite Himg.
  - intros Hst. unfold renderCurrentState. rewrite Hst, Himg.
    unfold renderIdleState. rewrite Hst. by destruct (v_analysisResult _).
Qed.

(** X20.  The 15 second timer of a pending analysis does not report an
    error: when it fires, the status becomes COMPLETED with the fixed result
    "Leaf Analysis Complete", confidence 78, for which no query is made, and
    the error is left as it was.  The result is displayed over the image
    when there is one; when the read has not delivered an image yet, the
    screen is the welcome screen with its picker disabled. *)
Theorem timeout_completes_with_mock (st : State) :
  timeoutArmed (v_status st) = true →
  let st' := timeoutCallback (v_status st) st in
  v_status st' = Client.COMPLETED
  ∧ v_analysisResult st' = Some timeoutMock
  ∧ r_detectedDisease timeoutMock = "Leaf Analysis Complete"%string
  ∧ r_confidence timeoutMock = 78%Z
  ∧ v_error st' = v_error st
  ∧ queryArg st' = None
  ∧ (∀ image, v_selectedImage st = Some image → truthy image = true →
       renderCurrentState st' = ResultDisplay image timeoutMock)
  ∧ (v_selectedImage st = None → renderCurrentState st' = IdleState true).
Proof.
  intros Harmed st'. subst st'. unfold timeoutCallback.
  assert (negb (is_completed (v_status st)) = true) as ->
    by (by destruct (v_status st)).
  split; [done|]. split; [done|]. split; [done|]. split; [done|]. split; [done|].
  split; [done|]. unfold renderCurrentState. cbn [v_status v_analysisResult v_selectedImage].
  split.
  - intros image -> ->. done.
  - intros ->. done.
Qed.

End ViewFacts.

(** ** The tables of a deployment *)

Section DeploymentFacts.

Import Backend.

Lemma step_tables w c :
  (diseases (step w c) = diseases w
   ∨ (diseases w = [] ∧ c = CallSeedDiseases ∧ diseases (step w c) = Seed.seed_entries))
  ∧ length (analyses (step w c))
    = length (analyses w) + match c with CallAnalyzeImage _ _ => 1 | _ => 0 end.
Proof.
  destruct c as [|P img|P d s]; cbn [step].
  - unfold Seed.seedDiseases, Seed.first.
    destruct (diseases w) as [|d0 r] eqn:Hd; cbn [head snd].
    + rewrite insert_all_diseases, insert_all_analyses, Hd. split; [right|lia]. done.
    + split; [by left|lia].
  - destruct (analyzeImage_run P img w) as (a & t & Hd & Ha & _). rewrite Ha, length_app.
    split; [by left|done].
  - destruct (getTreatmentInfo_returns P d s w) as (r & w' & t & Hrun & (Hd & Ha & _) & _).
    rewrite Hrun. cbn [snd]. rewrite Hd, Ha. split; [by left|lia].
Qed.

Lemma analyze_calls_snoc cs c :
  analyze_calls (cs ++ [c])
  = analyze_calls cs + match c with CallAnalyzeImage _ _ => 1 | _ => 0 end.
Proof.
  induction cs as [|c' cs IH]; simpl; [by destruct c|].
  destruct c'; rewrite IH; done.
Qed.

(** X19.  Whatever calls a deployment has served, in any order and number,
    its catalog is either empty or exactly the five seeded entries: repeated
    seeding never duplicates an entry and no other function writes the
    catalog.  Its [analyses] table holds one document per invocation of
    [analyzeImage], no more and no less. *)
Theorem deployment_tables (cs : list Call) :
  (diseases (after cs) = [] ∨ diseases (after cs) = Seed.seed_entries)
  ∧ length (analyses (after cs)) = analyze_calls cs.
Proof.
  induction cs as [|c cs [IHd IHa]] using rev_ind; [by split; [left|]|].
  unfold after. rewrite foldl_app. simpl. fold (after cs).
  destruct (step_tables (after cs) c) as [Hd Ha]. split.
  - destruct Hd as [->|(_ & _ & ->)]; [done|by right].
  - rewrite Ha, IHa, analyze_calls_snoc. done.
Qed.

End DeploymentFacts.

(** ** Further runs on concrete inputs *)

Section FurtherRuns.

Import Backend Sample Cases.

Lemma analyzeImage_stores_answer_witness :
  (analyzeImage good "img" seeded).1 = Return 0
  ∧ map detectedDisease (analyses (analyzeImage good "img" seeded).2) = ["Leaf Blight"%string].
Proof.
  destruct (analyzeImage_stores_answer good "img" seeded blightAnswer
              "Leaf Blight" ["Large brown patches"%string] 85%Z moderate)
    as (r & w1 & _ & Hres & Hdocs).
  - reflexivity.
  - intros H. vm_compute in H. discriminate.
  - vm_compute. reflexivity.
  - split; [exact Hres|]. rewrite Hdocs. reflexivity.
Defined.

Lemma analyzeImage_rejects_invalid_answer_witness :
  (analyzeImage severe "img" seeded).1 = Throw ArgumentValidationError
  ∧ analyses (analyzeImage severe "img" seeded).2 = [failedDoc (Some 3)].
Proof.
  destruct (analyzeImage_rejects_invalid_answer severe "img" seeded severeAnswer)
    as (Hres & Hdocs).
  - reflexivity.
  - intros H. vm_compute in H. discriminate.
  - vm_compute. reflexivity.
  - split; [|exact Hdocs]. rewrite Hres. vm_compute. reflexivity.
Defined.

Lemma analyzeImage_returned_id_witness :
  getAnalysis 0 seeded = None
  ∧ ∃ a, getAnalysis 0 (analyzeImage prose "img" seeded).2 = Some a ∧ status a = completed.
Proof.
  apply (analyzeImage_returned_id_is_completed prose "img" seeded 0).
  vm_compute. reflexivity.
Defined.

Lemma getTreatmentInfo_asks_model_witness :
  ∃ r, (getTreatmentInfo good "Orange rust" ["Orange pustules"%string] seeded).1 = Return r
       ∧ t_treatment r = "Spray weekly."%string.
Proof.
  destruct (getTreatmentInfo_asks_model good "Orange rust" ["Orange pustules"%string]
              seeded Seed.seed_entries (Some "Spray weekly."%string))
    as (r & w' & Hrun & _ & _ & Hverbatim & _).
  - reflexivity.
  - repeat constructor.
  - reflexivity.
  - exists r. split; [by rewrite Hrun|]. by apply Hverbatim.
Defined.

Lemma getTreatmentInfo_empty_name_witness :
  (getTreatmentInfo good "" [] seeded).1
  = Return {| t_treatment := d_treatment Seed.leafSpot; t_sources := [] |}.
Proof.
  rewrite (getTreatmentInfo_empty_name good [] seeded Seed.leafSpot
             [Seed.rhizomeRot; Seed.leafBlight; Seed.bacterialWilt; Seed.healthyPlant]);
    reflexivity.
Defined.

Lemma prompt_names_resolve_witness :
  (getTreatmentInfo good "BACTERIAL wilt" [] seeded).1
  = Return {| t_treatment := d_treatment Seed.bacterialWilt; t_sources := [] |}.
Proof.
  destruct (prompt_names_resolve good seeded "BACTERIAL wilt" [] Seed.bacterialWilt)
    as (_ & Hrun).
  - reflexivity.
  - unfold Seed.seed_entries. do 3 apply list_elem_of_further. apply list_elem_of_here.
  - reflexivity.
  - by rewrite Hrun.
Defined.

Lemma updateAnalysis_patches_one_witness :
  updateAnalysis {| u_analysisId := 7; u_detectedDisease := "Leaf Blight";
                    u_confidence := 85%Z; u_severity := high; u_symptoms := [];
                    u_treatment := "Spray."; u_sources := []; u_status := completed |}
    seeded
  = (Throw DocumentNotFound, seeded)
  ∧ ∃ w', updateAnalysis {| u_analysisId := 0; u_detectedDisease := "Leaf Blight";
                            u_confidence := 85%Z; u_severity := high; u_symptoms := [];
                            u_treatment := "Spray."; u_sources := [];
                            u_status := completed |} onePending
          = (Return tt, w')
          ∧ getAnalysis 0 w'
            = Some {| userId := Some 3; imageUrl := None; imageStorageId := None;
                      detectedDisease := "Leaf Blight"; confidence := 85%Z;
                      severity := high; symptoms := []; treatment := "Spray.";
                      sources := Some []; status := completed |}.
Proof.
  split.
  - apply (proj1 (updateAnalysis_patches_one _ seeded)). reflexivity.
  - destruct (proj2 (updateAnalysis_patches_one
                       {| u_analysisId := 0; u_detectedDisease := "Leaf Blight";
                          u_confidence := 85%Z; u_severity := high; u_symptoms := [];
                          u_treatment := "Spray."; u_sources := [];
                          u_status := completed |} onePending)
                (pendingDoc (Some 3)) eq_refl)
      as (w' & Hrun & _ & _ & Hget & _).
    exists w'. split; [exact Hrun|exact Hget].
Defined.

(** On an engine that folds accented capitals, a name is matched by the first
    of two spellings that differ only in case, and the model is not asked. *)
Example accented_names_fold :
  JsString.toLowerCase (lowerUnicode latin) "CAFÉ ROT" = "café rot"%string
  ∧ matchesDisease latin "café rot"
      {| name := "CAFÉ ROT"; scientificName := ""; d_severity := low;
         d_symptoms := []; causes := ""; prevention := [];
         d_treatment := "Treatment of the capital spelling"; description := "" |} = true
  ∧ (getTreatmentInfo latin "café rot" [] accented).1
    = Return {| t_treatment := "Treatment of the capital spelling"; t_sources := [] |}
  ∧ chat_calls (trace (getTreatmentInfo latin "café rot" [] accented).2) = [].
Proof. vm_compute. done. Qed.

Lemma new_analysis_heads_history_witness :
  ∃ a, head (getUserAnalyses good (analyzeImage good "p" (after busy)).2) = Some (15, a).
Proof.
  destruct (new_analysis_heads_history good "p" (after busy) 3 eq_refl) as (a & _ & Hhead).
  exists a. exact Hhead.
Defined.

Lemma anonymous_analysis_witness :
  getAnalysis 15 (analyzeImage anonymous "p" (after busy)).2 = Some anonymousDoc
  ∧ (15, anonymousDoc) ∉ getUserAnalyses good (analyzeImage anonymous "p" (after busy)).2.
Proof.
  split; [vm_compute; reflexivity|].
  apply (anonymous_analysis_in_no_history anonymous good "p" (after busy)). reflexivity.
Defined.

Lemma prose_around_object_witness :
  jsonString "Sure: {a} Thanks."%string = "{a}"%string.
Proof.
  apply (proj1 (prose_around_object_is_dropped good "Sure: " "a" " Thanks."
                  ltac:(vm_compute; intuition discriminate)
                  ltac:(vm_compute; intuition discriminate))).
Defined.

Lemma backend_called_witness :
  Client.CallAnalyzeImage "data:image/jpeg;base64,AAAA"
  ∈ (Client.upload (Some photo) (Client.Loaded "data:image/jpeg;base64,AAAA") idle).2.
Proof.
  apply (proj1 (backend_called_only_after_read photo
                  (Client.Loaded "data:image/jpeg;base64,AAAA") idle)).
  split; [reflexivity|]. split; [|reflexivity]. vm_compute. discriminate.
Defined.

Lemma forced_mock_witness :
  View.renderCurrentState
    (View.forcedMockCallback
       (foldl View.onBackendEvent
          (View.onload "data:image/jpeg;base64,AAAA" (View.resetAnalysis showingMock)).1
          [View.Resolved Client.IDLE "jd7f3k2m9"; View.QueryDelivers (Some storedDoc)]))
  = View.ResultDisplay "data:image/jpeg;base64,AAAA" View.forcedMock.
Proof.
  apply (forced_mock_is_displayed "data:image/jpeg;base64,AAAA"). reflexivity.
Defined.

Lemma late_answer_witness :
  View.renderCurrentState (View.analysisResolved Client.IDLE "jd7f3k2m9" showingMock)
  = View.ResultDisplay "data:image/jpeg;base64,AAAA" (View.placeholder "jd7f3k2m9")
  ∧ View.onBackendEvent (View.analysisResolved Client.IDLE "jd7f3k2m9" showingMock)
      (View.QueryDelivers (Some storedDoc))
    = View.analysisResolved Client.IDLE "jd7f3k2m9" showingMock.
Proof.
  destruct (late_answer_shows_placeholder showingMock Client.IDLE "jd7f3k2m9"
              "data:image/jpeg;base64,AAAA" storedDoc)
    as (_ & Hsame & Hscreen & _); try reflexivity; try discriminate.
  split; [exact Hscreen|exact Hsame].
Defined.

Lemma timeout_witness :
  View.renderCurrentState (View.timeoutCallback Client.ANALYZING reading)
  = View.IdleState true.
Proof.
  apply (timeout_completes_with_mock reading); reflexivity.
Defined.

Lemma createAnalysis_then_get_witness :
  ∃ id w', createAnalysis (Some 3) analyzing seeded = (Return id, w')
           ∧ getAnalysis id seeded = None.
Proof.
  destruct (createAnalysis_then_get (Some 3) analyzing seeded)
    as (id & w' & Hrun & Hfresh & _).
  by exists id, w'.
Defined.

End FurtherRuns.
